(** * RySimpleRangeTester: a shallow embedding of [RySimpleRangeTester.h]

    The class template [RySimpleRangeTester<T>] keeps a
    [std::unordered_map<std::string, TestItem>] of named test values, one
    shared predicate and a vector of results.  Its member functions are
    embedded as functions on a record holding the three data members.

    Modelling decisions, all taken from the header:
    - [m_testItems] is a [gmap string (TestItem T)]; the order in which a
      range-for visits an unordered map is unspecified, so the run is
      parametric in a traversal (see [Platform]);
    - [size_t] quantities that count elements are [nat]; every subtraction
      of such counts in the header has a left operand that is at least the
      right one (lemma [getPassedCount_le]), so no wrap-around occurs;
    - [std::chrono::milliseconds] counts are [Z] ([long long]);
    - a predicate invocation returns a [bool], throws an object derived from
      [std::exception] (it carries the [what()] message), or throws an
      object of another type, which [catch (const std::exception&)] does not
      handle;
    - text written to [std::cout] is represented by the structured data it
      is rendered from ([TestReport]);
    - the [double] returned by [getPassRate] is an IEEE 754 binary64 value
      ([getPassRate_double], on primitive floats); [getPassRate] gives the
      exact rational it rounds. *)

From Stdlib Require Import ZArith QArith Ascii.
From Stdlib Require Import PrimInt63 PrimFloat.
From stdpp Require Import gmap strings list fin_maps pretty.

Set Default Proof Using "Type".
Local Open Scope string_scope.
Local Open Scope list_scope.
Local Open Scope Z_scope.

(** ** Data model *)

(** [struct TestItem]. *)
Record TestItem (T : Type) := mkTestItem {
  item : T;
  name : string;
  description : string;
  expectedToFail : bool
}.
Arguments mkTestItem {T} _ _ _ _.
Arguments item {T} _.
Arguments name {T} _.
Arguments description {T} _.
Arguments expectedToFail {T} _.

(** What a [throw] inside the predicate can deliver to the [try] block of
    [runTests]. *)
Inductive Exception :=
| StdException (what : string)
| OtherObject.

(** Outcome of one call [m_testCallback(testItem.item)]. *)
Inductive Invocation :=
| Returns (b : bool)
| Throws (e : Exception).

(** [using TestCallback = std::function<bool(const T&)>]. *)
Definition TestCallback (T : Type) : Type := T → Invocation.

(** [struct TestResult]. *)
Record TestResult := mkTestResult {
  res_name : string;
  success : bool;
  error : string;
  duration : Z;
  wasExpectedToFail : bool;
  res_description : string
}.

(** The data members of [RySimpleRangeTester<T>]; an empty [std::function]
    is [None]. *)
Record RySimpleRangeTester (T : Type) := mkTester {
  m_testItems : gmap string (TestItem T);
  m_testCallback : option (TestCallback T);
  m_results : list TestResult
}.
Arguments mkTester {T} _ _ _.
Arguments m_testItems {T} _.
Arguments m_testCallback {T} _.
Arguments m_results {T} _.

(** How a member function call ends: it returns, or an exception leaves
    it. *)
Inductive Completion (A : Type) :=
| Returned (a : A)
| Propagated (e : Exception).
Arguments Returned {A} _.
Arguments Propagated {A} _.

(** What the header takes from its environment: the order in which the
    range-for over [m_testItems] visits the entries (any enumeration of the
    map), and the readings of [std::chrono::steady_clock::now()] in
    nanoseconds, numbered in call order within one run. *)
Record Platform (T : Type) := mkPlatform {
  traverse : gmap string (TestItem T) → list (string * TestItem T);
  traverse_perm : ∀ m, traverse m ≡ₚ map_to_list m;
  steady_clock_now : nat → Z;
  steady_clock_mono : ∀ i j, (i ≤ j)%nat → (steady_clock_now i ≤ steady_clock_now j)%Z
}.
Arguments traverse {T} _ _.
Arguments traverse_perm {T} _ _.
Arguments steady_clock_now {T} _ _.
Arguments steady_clock_mono {T} _ _ _ _.

(** [PERFORMANCE ANALYSIS] block of the report. *)
Record PerformanceAnalysis := mkPerformanceAnalysis {
  slowest : TestResult;
  fastest : TestResult;
  avgTime : Z;
  slowTests : list TestResult
}.

(** The report printed by [printTestReport], section by section; a block
    that is not printed is [None]. *)
Record TestReport := mkTestReport {
  totalTests : nat;
  totalTime : Z;
  totalTestTime : Z;
  averageTimePerTest : Z;
  overheadTime : Z;
  passedBlock : option (nat * list TestResult);
  failedBlock : option (Z * list TestResult);
  performance : option PerformanceAnalysis
}.

(** ** Helpers standing for library calls *)

(** Conversion of a [long long] to [unsigned long] (usual arithmetic
    conversions of [long long / size_t]). *)
Definition to_size_t (z : Z) : Z := z mod 2 ^ 64.

(** [std::format("{}_{}", baseName, counter)]. *)
Definition format_name (baseName : string) (counter : nat) : string :=
  baseName +:+ "_" +:+ pretty counter.

(** [std::unordered_map::try_emplace]: no effect when the key is present. *)
Definition try_emplace {V : Type} (k : string) (v : V) (m : gmap string V) : gmap string V :=
  match m !! k with
  | Some _ => m
  | None => <[k := v]> m
  end.

(** [std::chrono::duration_cast<std::chrono::milliseconds>] of a nanosecond
    count: truncation toward zero. *)
Definition duration_cast_ms (ns : Z) : Z := Z.quot ns 1000000.

(** [std::accumulate] of the durations, starting from [milliseconds(0)]. *)
Definition accumulate_durations (results : list TestResult) : Z :=
  foldl (λ sum result, sum + duration result) 0 results.

(** The scan behind [std::minmax_element] with comparator [comp]: [mn] and
    [mx] are the positions and values of the current smallest and largest
    element.  The smallest is replaced only by a strictly smaller element,
    the largest by every element that is not smaller than it. *)
Fixpoint minmax_scan {A : Type} (comp : A → A → bool) (l : list A) (i : nat)
    (mn mx : nat * A) : nat * nat :=
  match l with
  | [] => (mn.1, mx.1)
  | x :: l' =>
      minmax_scan comp l' (S i)
        (if comp x mn.2 then (i, x) else mn)
        (if comp x mx.2 then mx else (i, x))
  end.

(** [std::minmax_element(first, last, comp)], as positions in the range:
    the first smallest element and the last largest element
    (C++ standard, [alg.min.max]); [{first, first}] on an empty range. *)
Definition minmax_element {A : Type} (comp : A → A → bool) (l : list A) : nat * nat :=
  match l with
  | [] => (0%nat, 0%nat)
  | x :: l' => minmax_scan comp l' 1 (0%nat, x) (0%nat, x)
  end.

(** ** Member functions *)

Section tester.
Context {T : Type}.

(** The [do ... while (m_testItems.contains(name))] loop of
    [generateUniqueName].  [fuel] bounds the number of further iterations;
    [generateUniqueName_loop_spec] shows that the bound given by
    [generateUniqueName] is never exhausted. *)
Fixpoint generateUniqueName_loop (items : gmap string (TestItem T))
    (baseName : string) (fuel counter : nat) : string :=
  let candidate := format_name baseName counter in
  match items !! candidate with
  | None => candidate
  | Some _ =>
      match fuel with
      | O => candidate
      | S fuel' => generateUniqueName_loop items baseName fuel' (S counter)
      end
  end.

Definition generateUniqueName (t : RySimpleRangeTester T) (baseName : string) : string :=
  generateUniqueName_loop (m_testItems t) baseName
    (size (m_testItems t)) (size (m_testItems t) + 1).

(** [name.empty()]. *)
Definition empty_string (s : string) : bool :=
  match s with
  | EmptyString => true
  | String _ _ => false
  end.

(** [add(const T& item, std::string_view name, std::string_view description)]. *)
Definition add (value : T) (name_ description_ : string)
    (t : RySimpleRangeTester T) : RySimpleRangeTester T :=
  let effectiveName :=
    if empty_string name_ then generateUniqueName t "Test" else name_ in
  mkTester
    (try_emplace effectiveName
       (mkTestItem value effectiveName description_ false) (m_testItems t))
    (m_testCallback t) (m_results t).

(** [add(TestItem testItem)]. *)
Definition add_item (testItem : TestItem T)
    (t : RySimpleRangeTester T) : RySimpleRangeTester T :=
  let testItem' :=
    if empty_string (name testItem)
    then mkTestItem (item testItem) (generateUniqueName t "Test")
           (description testItem) (expectedToFail testItem)
    else testItem in
  mkTester (try_emplace (name testItem') testItem' (m_testItems t))
    (m_testCallback t) (m_results t).

(** [add(const Container<T>& items, namePrefix)] and
    [add(std::initializer_list<T> items, namePrefix)]. *)
Definition add_values (items : list T) (namePrefix : string)
    (t : RySimpleRangeTester T) : RySimpleRangeTester T :=
  foldl (λ t value, add value (generateUniqueName t namePrefix) "" t) t items.

(** [add(const Container<TestItem>& items, namePrefix)]: the prefix is not
    used. *)
Definition add_items (items : list (TestItem T))
    (t : RySimpleRangeTester T) : RySimpleRangeTester T :=
  foldl (λ t testItem, add_item testItem t) t items.

Definition remove (name_ : string) (t : RySimpleRangeTester T) : RySimpleRangeTester T :=
  mkTester (delete name_ (m_testItems t)) (m_testCallback t) (m_results t).

(** [std::erase_if] with the predicate applied to [pair.second]. *)
Definition removeIf (pred : TestItem T → bool)
    (t : RySimpleRangeTester T) : RySimpleRangeTester T :=
  mkTester (filter (λ kv, pred kv.2 = false) (m_testItems t))
    (m_testCallback t) (m_results t).

Definition forEach (callback : TestCallback T)
    (t : RySimpleRangeTester T) : RySimpleRangeTester T :=
  mkTester (m_testItems t) (Some callback) (m_results t).

Definition set_expectedToFail (testItem : TestItem T) : TestItem T :=
  mkTestItem (item testItem) (name testItem) (description testItem) true.

Definition expect (name_ : string) (t : RySimpleRangeTester T) : RySimpleRangeTester T :=
  mkTester (alter set_expectedToFail name_ (m_testItems t))
    (m_testCallback t) (m_results t).

Definition expectIf (pred : TestItem T → bool)
    (t : RySimpleRangeTester T) : RySimpleRangeTester T :=
  mkTester
    ((λ testItem, if pred testItem then set_expectedToFail testItem else testItem)
       <$> m_testItems t)
    (m_testCallback t) (m_results t).

Definition clear (t : RySimpleRangeTester T) : RySimpleRangeTester T :=
  mkTester ∅ (m_testCallback t) [].

(** [getTestItem]: [nullptr] is [None]. *)
Definition getTestItem (name_ : string) (t : RySimpleRangeTester T) : option (TestItem T) :=
  m_testItems t !! name_.

(** [std::ranges::count_if(m_results, &TestResult::success)]. *)
Definition getPassedCount (t : RySimpleRangeTester T) : nat :=
  length (List.filter success (m_results t)).

Definition getFailedCount (t : RySimpleRangeTester T) : nat :=
  (length (m_results t) - getPassedCount t)%nat.

(** [getPassRate] with the arithmetic carried out over the rationals: the
    exact value that the [double] result, [getPassRate_double] below,
    rounds. *)
Definition getPassRate (t : RySimpleRangeTester T) : Q :=
  match m_results t with
  | [] => 0%Q
  | _ :: _ =>
      (inject_Z (Z.of_nat (getPassedCount t))
         / inject_Z (Z.of_nat (length (m_results t))) * 100)%Q
  end.

(** [static_cast<double>] of an element count: the IEEE 754 binary64
    value nearest to it.  [int_of_positive] builds the machine integer the
    conversion starts from; the counts of a [std::vector] lie far below
    [2^63], where it is exact. *)
Fixpoint int_of_positive (p : positive) : PrimInt63.int :=
  match p with
  | xH => 1%uint63
  | xO p' => PrimInt63.lsl (int_of_positive p') 1%uint63
  | xI p' => PrimInt63.add (PrimInt63.lsl (int_of_positive p') 1%uint63) 1%uint63
  end.

Definition to_double (n : nat) : float :=
  match N.of_nat n with
  | N0 => PrimFloat.of_uint63 0%uint63
  | Npos p => PrimFloat.of_uint63 (int_of_positive p)
  end.

(** [getPassRate] as line 359 computes it, in [double]: the quotient is
    rounded to binary64, and so is its product with [100.0]. *)
Definition getPassRate_double (t : RySimpleRangeTester T) : float :=
  match m_results t with
  | [] => 0%float
  | _ :: _ =>
      PrimFloat.mul
        (PrimFloat.div (to_double (getPassedCount t)) (to_double (length (m_results t))))
        100%float
  end.

(** The comparator passed to [std::minmax_element]. *)
Definition duration_lt (a b : TestResult) : bool := duration a <? duration b.

(** [static_cast<long long>(avgTime * 1.5)]: the product is formed in
    [double] and truncated toward zero.  For [avgTime] below [2^51] the
    product [3 * avgTime / 2] has at most 53 significant bits, so the
    [double] holds it exactly and the cast yields the integer quotient. *)
Definition slow_threshold (avgTime_ : Z) : Z := 3 * avgTime_ / 2.

(** The [if (!m_results.empty())] block of [printTestReport]. *)
Definition performanceAnalysis (results : list TestResult) (totalTestTime_ : Z)
    : option PerformanceAnalysis :=
  match results with
  | [] => None
  | first :: _ =>
      let '(minIt, maxIt) := minmax_element duration_lt results in
      let avgTime_ := to_size_t totalTestTime_ / Z.of_nat (length results) in
      Some (mkPerformanceAnalysis
              (nth maxIt results first)
              (nth minIt results first)
              avgTime_
              (List.filter (λ result, slow_threshold avgTime_ <? duration result) results))
  end.

Definition printTestReport (t : RySimpleRangeTester T) (passedTests : nat)
    (totalTime_ totalTestTime_ : Z) : TestReport :=
  let failedTests := to_size_t (Z.of_nat (size (m_testItems t)) - Z.of_nat passedTests) in
  mkTestReport
    (size (m_testItems t))
    totalTime_
    totalTestTime_
    (if (0 <? size (m_testItems t))%nat
     then to_size_t totalTestTime_ / Z.of_nat (size (m_testItems t)) else 0)
    (totalTime_ - totalTestTime_)
    (if (0 <? passedTests)%nat
     then Some (passedTests, List.filter success (m_results t)) else None)
    (if 0 <? failedTests
     then Some (failedTests, List.filter (λ result, negb (success result)) (m_results t))
     else None)
    (performanceAnalysis (m_results t) totalTestTime_).

(** The [try { ... } catch (const std::exception& e) { ... }] statement of
    [runTests]: the final [result.success] and [result.error], or the
    exception that the handler does not catch. *)
Definition try_callback (callback : TestCallback T) (testItem : TestItem T)
    : Completion (bool * string) :=
  match callback (item testItem) with
  | Returns b =>
      let success_ := if expectedToFail testItem then negb b else b in
      Returned
        (success_,
         if success_ then ""
         else if expectedToFail testItem then "Test unexpectedly passed"
              else "Test failed")
  | Throws (StdException what) => Returned (false, what)
  | Throws OtherObject => Propagated OtherObject
  end.

(** The range-for of [runTests] over the entries in traversal order.
    [tick] numbers the next reading of the clock, [results] is [m_results]
    and [passedTests] the local counter.  The last component is the
    exception that left the loop, if any. *)
Fixpoint runTests_loop (pf : Platform T) (callback : TestCallback T)
    (items : list (string * TestItem T)) (tick : nat)
    (results : list TestResult) (passedTests : nat)
    : list TestResult * nat * nat * option Exception :=
  match items with
  | [] => (results, passedTests, tick, None)
  | (name_, testItem) :: rest =>
      let testStart := steady_clock_now pf tick in
      match try_callback callback testItem with
      | Propagated e => (results, passedTests, S tick, Some e)
      | Returned (success_, error_) =>
          let result :=
            mkTestResult name_ success_ error_
              (duration_cast_ms (steady_clock_now pf (S tick) - testStart))
              (expectedToFail testItem) (description testItem) in
          runTests_loop pf callback rest (S (S tick)) (results ++ [result])
            (if success_ then S passedTests else passedTests)
      end
  end.

Definition runTests (pf : Platform T) (t : RySimpleRangeTester T)
    : RySimpleRangeTester T * Completion TestReport :=
  match m_testCallback t with
  | None => (t, Propagated (StdException "Test callback not set"))
  | Some callback =>
      let totalStartTime := steady_clock_now pf 0 in
      let '(results, passedTests, tick, exn) :=
        runTests_loop pf callback (traverse pf (m_testItems t)) 1 [] 0 in
      let t' := mkTester (m_testItems t) (m_testCallback t) results in
      match exn with
      | Some e => (t', Propagated e)
      | None =>
          let totalTime_ := duration_cast_ms (steady_clock_now pf tick - totalStartTime) in
          (t', Returned (printTestReport t' passedTests totalTime_
                           (accumulate_durations results)))
      end
  end.

Definition run (pf : Platform T) (t : RySimpleRangeTester T)
    : RySimpleRangeTester T * Completion bool :=
  let '(t', c) := runTests pf t in
  match c with
  | Returned _ => (t', Returned (getPassedCount t' =? size (m_testItems t'))%nat)
  | Propagated e => (t', Propagated e)
  end.

(** The state of a default-constructed tester. *)
Definition new_tester : RySimpleRangeTester T := mkTester ∅ None [].

(** ** Vocabulary of the statements *)

(** [r] is the [TestResult] that one iteration of the loop of [runTests]
    builds for the Store entry [entry]: name, flag and description are
    copied, success and error come from the [try] statement, and the
    duration is a difference of two readings of a monotonic clock. *)
Definition matches_entry (callback : TestCallback T)
    (entry : string * TestItem T) (r : TestResult) : Prop :=
  res_name r = entry.1 ∧
  wasExpectedToFail r = expectedToFail entry.2 ∧
  res_description r = description entry.2 ∧
  try_callback callback entry.2 = Returned (success r, error r) ∧
  0 ≤ duration r.

(** One call of [add] on a single element, through either overload. *)
Inductive AddCall :=
| AddValue (value : T) (name_ description_ : string)
| AddItem (testItem : TestItem T).

Definition apply_add (t : RySimpleRangeTester T) (c : AddCall) : RySimpleRangeTester T :=
  match c with
  | AddValue value name_ description_ => add value name_ description_ t
  | AddItem testItem => add_item testItem t
  end.

Definition add_all (calls : list AddCall) (t : RySimpleRangeTester T) : RySimpleRangeTester T :=
  foldl apply_add t calls.

(** The name a call passes explicitly, and the [TestItem] it constructs
    for that name. *)
Definition call_name (c : AddCall) : string :=
  match c with
  | AddValue _ name_ _ => name_
  | AddItem testItem => name testItem
  end.

Definition call_entry (c : AddCall) : TestItem T :=
  match c with
  | AddValue value name_ description_ => mkTestItem value name_ description_ false
  | AddItem testItem => testItem
  end.

(** The entry of the first call in [calls] that names [k]. *)
Definition first_added (k : string) (calls : list AddCall) : option (TestItem T) :=
  call_entry <$> head (filter (λ c, call_name c = k) calls).

(** The public member functions that can change or read the Store, as
    data, so that statements can range over sequences of calls. *)
Inductive Operation :=
| OpAdd (value : T) (name_ description_ : string)
| OpAddItem (testItem : TestItem T)
| OpAddValues (items : list T) (namePrefix : string)
| OpAddItems (items : list (TestItem T))
| OpRemove (name_ : string)
| OpRemoveIf (pred : TestItem T → bool)
| OpForEach (callback : TestCallback T)
| OpExpect (name_ : string)
| OpExpectIf (pred : TestItem T → bool)
| OpClear
| OpRun (pf : Platform T).

Definition apply_operation (t : RySimpleRangeTester T) (op : Operation) : RySimpleRangeTester T :=
  match op with
  | OpAdd value name_ description_ => add value name_ description_ t
  | OpAddItem testItem => add_item testItem t
  | OpAddValues items namePrefix => add_values items namePrefix t
  | OpAddItems items => add_items items t
  | OpRemove name_ => remove name_ t
  | OpRemoveIf pred => removeIf pred t
  | OpForEach callback => forEach callback t
  | OpExpect name_ => expect name_ t
  | OpExpectIf pred => expectIf pred t
  | OpClear => clear t
  | OpRun pf => (run pf t).1
  end.

Definition apply_operations (ops : list Operation) (t : RySimpleRangeTester T)
    : RySimpleRangeTester T :=
  foldl apply_operation t ops.

(** Every entry of the Store is filed under its own [name] field. *)
Definition keys_match_names (t : RySimpleRangeTester T) : Prop :=
  ∀ k testItem, m_testItems t !! k = Some testItem → name testItem = k.

End tester.
Arguments AddCall : clear implicits.
Arguments Operation : clear implicits.

(** ** Vocabulary of the report statements *)

(** [r] stands at position [i] of the Result Log, no Result has a smaller
    duration, and every Result before position [i] has a strictly greater
    one: [r] is the first of the fastest Results. *)
Definition first_fastest (results : list TestResult) (i : nat) (r : TestResult) : Prop :=
  results !! i = Some r ∧
  (∀ j r', results !! j = Some r' → duration r ≤ duration r') ∧
  (∀ j r', (j < i)%nat → results !! j = Some r' → duration r < duration r').

(** [r] is the last of the slowest Results. *)
Definition last_slowest (results : list TestResult) (i : nat) (r : TestResult) : Prop :=
  results !! i = Some r ∧
  (∀ j r', results !! j = Some r' → duration r' ≤ duration r) ∧
  (∀ j r', (i < j)%nat → results !! j = Some r' → duration r' < duration r).

(** [r] is the first of the slowest Results: the tie-break that the
    specification text attributes to the report. *)
Definition first_slowest (results : list TestResult) (i : nat) (r : TestResult) : Prop :=
  results !! i = Some r ∧
  (∀ j r', results !! j = Some r' → duration r' ≤ duration r) ∧
  (∀ j r', (j < i)%nat → results !! j = Some r' → duration r' < duration r).

(** ** Concrete inputs *)

(** A platform on which the entries are visited in the order of
    [map_to_list] and successive clock readings are 5 ms apart. *)
Definition example_platform : Platform Z :=
  mkPlatform Z map_to_list (λ m, reflexivity _) (λ k, Z.of_nat k * 5000000)
    (λ i j H,
       Z.mul_le_mono_nonneg_r _ _ 5000000
         (proj1 (Z.leb_le 0 5000000) eq_refl) (inj_le _ _ H)).

(** The predicate [x > 0], and one that throws a [std::exception] on [0]. *)
Definition positive : TestCallback Z := λ x, Returns (0 <? x).

Definition scenario_predicate : TestCallback Z :=
  λ x, if x =? 0 then Throws (StdException "zero has no sign") else Returns (0 <? x).

(** [tester.add(1, "a").add(-1, "b")]. *)
Definition sign_tester : RySimpleRangeTester Z :=
  add (-1) "b" "" (add 1 "a" "" new_tester).

(** [tester.add(1, "a").add(-1, "b").expect("b").add(0, "c", "raises")
    .forEach(scenario_predicate)]. *)
Definition scenario_tester : RySimpleRangeTester Z :=
  forEach scenario_predicate (add 0 "c" "raises" (expect "b" sign_tester)).

(** Two items whose runs take the same time. *)
Definition tie_tester : RySimpleRangeTester Z :=
  forEach (λ _, Returns true) (add 2 "b" "" (add 1 "a" "" new_tester)).

Definition tie_log : list TestResult :=
  [mkTestResult "a" true "" 5 false ""; mkTestResult "b" true "" 5 false ""].

(** A Result Log with two slow Results. *)
Definition slow_log : list TestResult :=
  [mkTestResult "a" true "" 1 false ""; mkTestResult "b" true "" 2 false "";
   mkTestResult "c" false "Test failed" 10 false ""; mkTestResult "d" true "" 10 false ""].

(** [tester.add(1, "a").forEach(...)], run once, then [remove("a")]. *)
Definition passrate_tester : RySimpleRangeTester Z :=
  remove "a" (run example_platform (forEach (λ _, Returns true) (add 1 "a" "" new_tester))).1.

(** Three [add] calls with explicit names, the last one repeating the
    first name. *)
Definition example_calls : list (AddCall Z) :=
  [AddValue 1 "a" "first"; AddItem (mkTestItem 2 "b" "" true); AddValue 3 "a" "again"].

Definition example_operations : list (Operation Z) :=
  [OpAdd 7 "" ""; OpAddValues [3; 4] "num"; OpAddItems [mkTestItem 5 "" "five" true];
   OpExpect "num_2"; OpRemoveIf (λ testItem, item testItem =? 4); OpForEach positive;
   OpRun example_platform; OpExpectIf (λ testItem, item testItem <? 6); OpRemove "Test_1"].

Section generated_keys.
Context {T : Type}.

(** The name under which the container overload of [add] files the value
    at position [i]: what [generateUniqueName(namePrefix)] returns when the
    loop reaches that value, the values before it having been added. *)
Definition generated_key (items : list T) (namePrefix : string)
    (t : RySimpleRangeTester T) (i : nat) : string :=
  generateUniqueName (add_values (take i items) namePrefix t) namePrefix.
End generated_keys.

(** ** Further concrete inputs *)

(** [sign_tester] with a third item on which the predicate throws an
    object that is not a [std::exception]. *)
Definition foreign_tester : RySimpleRangeTester Z :=
  forEach (λ x, if x =? 0 then Throws OtherObject else Returns true)
    (add 0 "c" "" sign_tester).

(** [sign_tester] with a third item, after a run with the predicate
    [x > 0]: two of the three Results pass. *)
Definition two_of_three_tester : RySimpleRangeTester Z :=
  (run example_platform (forEach positive (add 2 "c" "" sign_tester))).1.

(** * RyTest: the suite and case registry of the second header

    [namespace RyTest] holds a registry of test cases, a filter that is
    configured from two environment variables, and [runAllTests], which
    runs the selected cases and returns the exit code.  The two singletons
    are embedded as explicit state.  [std::regex] and the values of the
    environment variables are taken from the environment of the run. *)

Module RyTest.

(** [enum class TestStatus]. *)
Inductive TestStatus := Enabled | Disabled | Skip.

(** What calling a [std::function] does: it gives its result or an
    exception leaves it (for an empty function, [std::bad_function_call],
    which is a [std::exception]). *)
Inductive Call (A : Type) :=
| Gives (a : A)
| Raises (e : Exception).
Arguments Gives {A} _.
Arguments Raises {A} _.

(** [struct TestCase]; a null [validateFunc] is [None]. *)
Record TestCase := mkTestCase {
  suiteName : string;
  caseName : string;
  testFunc : Call unit;
  validateFunc : option (Call bool);
  status : TestStatus;
  skipReason : string
}.

(** [struct TestStatistics]. *)
Record TestStatistics := mkTestStatistics {
  total : nat;
  passed : nat;
  failed : nat;
  skipped : nat;
  totalTime : Z
}.

(** The data members of [TestFilter]. *)
Record TestFilter := mkTestFilter {
  m_disabledTests : gset string;
  m_filterPattern : option string
}.

(** What a run takes from its environment: the values of
    [std::getenv("RYTEST_DISABLED_TESTS")] and [std::getenv("RYTEST_FILTER")]
    (a null pointer is [None]), the result of building a [std::regex] from
    a pattern and matching a name against it with [std::regex_match]
    ([None] when an exception is thrown), and the readings of the steady
    clock in nanoseconds, numbered in call order. *)
Record Environment := mkEnvironment {
  getenv_disabled_tests : option string;
  getenv_filter : option string;
  regex_match : string → string → option bool;
  clock_now : nat → Z
}.

(** One line group written to [std::cout] by [runAllTests]. *)
Inductive Event :=
| Skipped (fullName reason : string)
| Ok (fullName : string) (ms : Z)
| Failed (fullName errorMsg : string).

(** The loop [while (std::getline(ss, test, ','))]: [cur] holds the
    characters extracted so far by the current call.  A call succeeds when
    it meets a delimiter or extracts at least one character before the end
    of the input. *)
Fixpoint getline_segments (input cur : string) : list string :=
  match input with
  | EmptyString => if empty_string cur then [] else [cur]
  | String c rest =>
      if Ascii.eqb c ","%char then cur :: getline_segments rest ""
      else getline_segments rest (cur +:+ String c "")
  end.

(** [TestFilter::initializeFromEnv]. *)
Definition initializeFromEnv (env : Environment) (filter : TestFilter) : TestFilter :=
  mkTestFilter
    (match getenv_disabled_tests env with
     | Some disabled =>
         foldl (λ set test, {[test]} ∪ set) (m_disabledTests filter)
           (getline_segments disabled "")
     | None => m_disabledTests filter
     end)
    (match getenv_filter env with
     | Some pattern => Some pattern
     | None => m_filterPattern filter
     end).

(** [std::replace(first, last, old, new)] on a string. *)
Fixpoint replace (old new : ascii) (s : string) : string :=
  match s with
  | EmptyString => EmptyString
  | String c rest => String (if Ascii.eqb c old then new else c) (replace old new rest)
  end.

(** [TestFilter::matchesPattern]; [catch (...)] gives [false]. *)
Definition matchesPattern (env : Environment) (testName pattern : string) : bool :=
  match regex_match env (replace "*"%char "."%char pattern) testName with
  | Some matched => matched
  | None => false
  end.

(** [TestFilter::shouldRun]. *)
Definition shouldRun (env : Environment) (filter : TestFilter) (fullTestName : string) : bool :=
  if bool_decide (fullTestName ∈ m_disabledTests filter) then false
  else match m_filterPattern filter with
       | Some pattern => matchesPattern env fullTestName pattern
       | None => true
       end.

(** [std::format("{}.{}", test.suiteName, test.caseName)]. *)
Definition fullName (test : TestCase) : string :=
  suiteName test +:+ "." +:+ caseName test.

Definition is_disabled (test : TestCase) : bool :=
  match status test with Disabled => true | _ => false end.

Definition is_skip (test : TestCase) : bool :=
  match status test with Skip => true | _ => false end.

(** The [try] statement of [runAllTests] with its two handlers: the final
    [success] and [errorMsg]. *)
Definition try_test (test : TestCase) : bool * string :=
  match validateFunc test with
  | Some (Gives false) => (false, "Validation failed")
  | Some (Raises (StdException what)) => (false, what)
  | Some (Raises OtherObject) => (false, "Unknown error")
  | Some (Gives true) | None =>
      match testFunc test with
      | Gives _ => (true, "")
      | Raises (StdException what) => (false, what)
      | Raises OtherObject => (false, "Unknown error")
      end
  end.

(** The first loop of [runAllTests]: the number of tests to run. *)
Fixpoint count_total (env : Environment) (filter : TestFilter) (tests : list TestCase)
    (total_ : nat) : nat :=
  match tests with
  | [] => total_
  | test :: rest =>
      count_total env filter rest
        (if negb (is_disabled test) && shouldRun env filter (fullName test)
         then S total_ else total_)
  end.

(** The second loop of [runAllTests]; [tick] numbers the next clock
    reading. *)
Fixpoint run_loop (env : Environment) (filter : TestFilter) (tests : list TestCase)
    (tick : nat) (stats : TestStatistics) (events : list Event)
    : TestStatistics * list Event * nat :=
  match tests with
  | [] => (stats, events, tick)
  | test :: rest =>
      if is_disabled test || negb (shouldRun env filter (fullName test)) then
        if is_skip test then
          run_loop env filter rest tick
            (mkTestStatistics (total stats) (passed stats) (failed stats)
               (S (skipped stats)) (totalTime stats))
            (events ++ [Skipped (fullName test) (skipReason test)])
        else run_loop env filter rest tick stats events
      else
        let testStart := clock_now env tick in
        let '(success_, errorMsg) := try_test test in
        let duration_ := duration_cast_ms (clock_now env (S tick) - testStart) in
        if success_ then
          run_loop env filter rest (S (S tick))
            (mkTestStatistics (total stats) (S (passed stats)) (failed stats)
               (skipped stats) (totalTime stats))
            (events ++ [Ok (fullName test) duration_])
        else
          run_loop env filter rest (S (S tick))
            (mkTestStatistics (total stats) (passed stats) (S (failed stats))
               (skipped stats) (totalTime stats))
            (events ++ [Failed (fullName test) errorMsg])
  end.

(** [TestRegistry::runAllTests]: the filter after [initializeFromEnv], the
    statistics passed to [printSummary], the lines written for the tests,
    and the returned exit code. *)
Definition runAllTests (env : Environment) (filter : TestFilter) (m_tests : list TestCase)
    : TestFilter * TestStatistics * list Event * Z :=
  let filter' := initializeFromEnv env filter in
  let startTime := clock_now env 0 in
  let total_ := count_total env filter' m_tests 0 in
  let '(stats, events, tick) :=
    run_loop env filter' m_tests 1 (mkTestStatistics total_ 0 0 0 0) [] in
  let stats' :=
    mkTestStatistics (total stats) (passed stats) (failed stats) (skipped stats)
      (duration_cast_ms (clock_now env tick - startTime)) in
  (filter', stats', events, if (0 <? failed stats)%nat then 1 else 0).

(** [TestRegistry::addTest]. *)
Definition addTest (test : TestCase) (m_tests : list TestCase) : list TestCase :=
  m_tests ++ [test].

(** A test is selected when it is not disabled and the filter lets it
    run. *)
Definition selected (env : Environment) (filter : TestFilter) (test : TestCase) : bool :=
  negb (is_disabled test) && shouldRun env filter (fullName test).

(** What the second loop does with one test: it runs and passes, runs and
    fails, is reported as skipped, or is passed over silently. *)
Definition passes (env : Environment) (filter : TestFilter) (test : TestCase) : bool :=
  selected env filter test && (try_test test).1.

Definition fails (env : Environment) (filter : TestFilter) (test : TestCase) : bool :=
  selected env filter test && negb (try_test test).1.

Definition reported_skipped (env : Environment) (filter : TestFilter) (test : TestCase)
    : bool :=
  is_skip test && negb (shouldRun env filter (fullName test)).

(** [status = Skip] replaced by [status = Enabled]. *)
Definition enable (test : TestCase) : TestCase :=
  mkTestCase (suiteName test) (caseName test) (testFunc test) (validateFunc test)
    (match status test with Skip => Enabled | other => other end) (skipReason test).

(** No character of [s] is the delimiter [','].  *)
Fixpoint comma_free (s : string) : bool :=
  match s with
  | EmptyString => true
  | String c rest => negb (Ascii.eqb c ","%char) && comma_free rest
  end.

(** ** Concrete inputs *)

(** [RYTEST_DISABLED_TESTS=math.slow,io.net,], no [RYTEST_FILTER]; the
    stand-in for [std::regex] matches a name against a pattern by
    equality and is not consulted without a filter pattern. *)
Definition example_environment : Environment :=
  mkEnvironment (Some "math.slow,io.net,") None
    (λ pattern subject, Some (String.eqb pattern subject))
    (λ k, Z.of_nat k * 2000000).

Definition listed_environment : Environment :=
  mkEnvironment (Some (String.concat "," ["math.slow"; "io.net"])) None
    (λ pattern subject, Some (String.eqb pattern subject))
    (λ k, Z.of_nat k * 2000000).

Definition example_tests : list TestCase :=
  [mkTestCase "math" "add" (Gives tt) None Enabled "";
   mkTestCase "math" "slow" (Gives tt) None Enabled "";
   mkTestCase "io" "net" (Gives tt) None Skip "no network";
   mkTestCase "io" "disk" (Raises (StdException "Expected true: ok")) None Skip "later";
   mkTestCase "io" "old" (Gives tt) None Disabled "";
   mkTestCase "ui" "draw" (Raises OtherObject) (Some (Gives true)) Enabled "";
   mkTestCase "ui" "check" (Gives tt) (Some (Gives false)) Enabled ""].

(** Every selected test passes. *)
Definition passing_tests : list TestCase :=
  [mkTestCase "math" "add" (Gives tt) None Enabled "";
   mkTestCase "math" "slow" (Raises OtherObject) None Enabled "";
   mkTestCase "ui" "check" (Gives tt) (Some (Gives true)) Skip ""].

End RyTest.
(** ** The name generator *)

Section name_generator.
Context {T : Type}.
Implicit Types (items : gmap string (TestItem T)) (t : RySimpleRangeTester T).

Lemma format_name_inj baseName : Inj (=) (=) (format_name baseName).
Proof.
  intros n m H. unfold format_name in H.
  apply (inj (String.app baseName)) in H.
  apply (inj (String.app "_")) in H.
  by apply (inj pretty) in H.
Qed.

Lemma candidates_bounded items baseName start k :
  (∀ j, (start ≤ j < start + k)%nat → is_Some (items !! format_name baseName j)) →
  (k ≤ size items)%nat.
Proof.
  intros Hin.
  set (l := format_name baseName <$> seq start k).
  assert (NoDup l) as Hnd.
  { apply (NoDup_fmap_2 _), NoDup_seq. }
  assert (list_to_set l ⊆ dom items) as Hsub.
  { intros x Hx. apply elem_of_list_to_set, list_elem_of_fmap in Hx as (j & -> & Hj).
    apply elem_of_seq in Hj. apply elem_of_dom, Hin. lia. }
  apply subseteq_size in Hsub.
  rewrite size_list_to_set, size_dom in Hsub by done.
  unfold l in Hsub. by rewrite length_fmap, length_seq in Hsub.
Qed.

Lemma generateUniqueName_loop_spec items baseName start fuel counter :
  (start ≤ counter)%nat →
  (∀ j, (start ≤ j < counter)%nat → is_Some (items !! format_name baseName j)) →
  (counter - start + fuel = size items)%nat →
  ∃ n, (counter ≤ n ≤ counter + fuel)%nat ∧
       generateUniqueName_loop items baseName fuel counter = format_name baseName n ∧
       items !! format_name baseName n = None ∧
       ∀ j, (counter ≤ j < n)%nat → is_Some (items !! format_name baseName j).
Proof.
  revert counter. induction fuel as [|fuel IH]; intros counter Hle Hseen Hfuel; simpl.
  - destruct (items !! format_name baseName counter) eqn:Hc.
    + exfalso.
      assert (S (counter - start) ≤ size items)%nat; [|lia].
      apply (candidates_bounded items baseName start). intros j Hj.
      destruct (decide (j = counter)) as [->|]; [by rewrite Hc|apply Hseen; lia].
    + exists counter. split_and!; [lia|lia|done|done|intros; lia].
  - destruct (items !! format_name baseName counter) eqn:Hc.
    + destruct (IH (S counter)) as (n & Hn & Hr & Hnone & Hbetween); [lia| |lia|].
      { intros j Hj. destruct (decide (j = counter)) as [->|]; [by rewrite Hc|apply Hseen; lia]. }
      exists n. split_and!; [lia|lia|done|done|].
      intros j Hj. destruct (decide (j = counter)) as [->|]; [by rewrite Hc|apply Hbetween; lia].
    + exists counter. split_and!; [lia|lia|done|done|intros; lia].
Qed.
End name_generator.
(** ** The Store *)

Section store.
Context {T : Type}.
Implicit Types (t : RySimpleRangeTester T) (m : gmap string (TestItem T))
  (c : AddCall T) (calls : list (AddCall T)).

Lemma generateUniqueName_spec t baseName :
  ∃ n, (size (m_testItems t) + 1 ≤ n ≤ 2 * size (m_testItems t) + 1)%nat ∧
       generateUniqueName t baseName = format_name baseName n ∧
       m_testItems t !! format_name baseName n = None ∧
       ∀ j, (size (m_testItems t) + 1 ≤ j < n)%nat →
            is_Some (m_testItems t !! format_name baseName j).
Proof.
  destruct (generateUniqueName_loop_spec (m_testItems t) baseName
              (size (m_testItems t) + 1) (size (m_testItems t)) (size (m_testItems t) + 1))
    as (n & Hn & Heq & Hnone & Hbetween); [lia|intros; lia|lia|].
  exists n. split_and!; [lia|lia|done|done|done].
Qed.

Lemma generateUniqueName_absent t baseName :
  m_testItems t !! generateUniqueName t baseName = None.
Proof. destruct (generateUniqueName_spec t baseName) as (n & _ & -> & Hnone & _). done. Qed.

Lemma generateUniqueName_nonempty t baseName :
  empty_string (generateUniqueName t baseName) = false.
Proof.
  destruct (generateUniqueName_spec t baseName) as (n & _ & -> & _).
  unfold format_name. by destruct baseName.
Qed.

Lemma try_emplace_lookup {V} (k k' : string) (v : V) (m : gmap string V) :
  try_emplace k v m !! k' =
  match m !! k' with
  | Some x => Some x
  | None => if decide (k = k') then Some v else None
  end.
Proof.
  unfold try_emplace. destruct (m !! k) as [x|] eqn:Hk.
  - destruct (m !! k') eqn:Hk'; [done|]. case_decide; [congruence|done].
  - rewrite lookup_insert. case_decide; [subst; by rewrite Hk|].
    by destruct (m !! k').
Qed.

Lemma try_emplace_present {V} (k : string) (v x : V) (m : gmap string V) :
  m !! k = Some x → try_emplace k v m = m.
Proof. intros Hk. unfold try_emplace. by rewrite Hk. Qed.

Lemma add_lookup_present t value n d k ti :
  m_testItems t !! k = Some ti → m_testItems (add value n d t) !! k = Some ti.
Proof. intros Hk. simpl. by rewrite try_emplace_lookup, Hk. Qed.

Lemma add_item_lookup_present t testItem k ti :
  m_testItems t !! k = Some ti → m_testItems (add_item testItem t) !! k = Some ti.
Proof. intros Hk. simpl. by rewrite try_emplace_lookup, Hk. Qed.

Lemma apply_add_lookup t c k :
  empty_string (call_name c) = false →
  m_testItems (apply_add t c) !! k =
  match m_testItems t !! k with
  | Some ti => Some ti
  | None => if decide (call_name c = k) then Some (call_entry c) else None
  end.
Proof.
  intros Hne. destruct c as [value n d|testItem]; simpl in *.
  - by rewrite Hne, try_emplace_lookup.
  - by rewrite Hne, try_emplace_lookup.
Qed.

Lemma apply_add_present t c ti :
  empty_string (call_name c) = false →
  m_testItems t !! call_name c = Some ti → apply_add t c = t.
Proof.
  destruct t as [m cb rs]. intros Hne Hk.
  destruct c as [value n d|testItem]; simpl in *; unfold add, add_item; simpl;
    rewrite Hne; by erewrite try_emplace_present.
Qed.

Lemma first_added_cons k c calls :
  first_added k (c :: calls) =
  if decide (call_name c = k) then Some (call_entry c) else first_added k calls.
Proof. unfold first_added. rewrite filter_cons. by case_decide. Qed.

Lemma add_all_lookup calls t k :
  Forall (λ c, empty_string (call_name c) = false) calls →
  m_testItems (add_all calls t) !! k =
  match m_testItems t !! k with
  | Some ti => Some ti
  | None => first_added k calls
  end.
Proof.
  intros Hall. revert t. induction Hall as [|c calls Hc _ IH]; intros t.
  - simpl. by destruct (m_testItems t !! k).
  - unfold add_all. simpl. fold (add_all calls (apply_add t c)).
    rewrite IH, apply_add_lookup, first_added_cons by done.
    destruct (m_testItems t !! k); [done|]. by case_decide.
Qed.

Lemma first_added_is_Some k calls :
  is_Some (first_added k calls) ↔ k ∈ call_name <$> calls.
Proof.
  induction calls as [|c calls IH].
  - split; [by intros [? ?]|by intros ?%elem_of_nil].
  - rewrite first_added_cons, fmap_cons, elem_of_cons.
    case_decide; [split; [by left|by eauto]|].
    rewrite IH. split; [by right|]. intros [?|?]; [congruence|done].
Qed.

Lemma add_keys t value n d : keys_match_names t → keys_match_names (add value n d t).
Proof.
  intros Hinv k ti. simpl. rewrite try_emplace_lookup.
  destruct (m_testItems t !! k) as [ti'|] eqn:Hk.
  - intros [= <-]. by apply Hinv.
  - case_decide; [|done]. by intros [= <-].
Qed.

Lemma add_item_keys t testItem : keys_match_names t → keys_match_names (add_item testItem t).
Proof.
  intros Hinv k ti. simpl. rewrite try_emplace_lookup.
  destruct (m_testItems t !! k) as [ti'|] eqn:Hk.
  - intros [= <-]. by apply Hinv.
  - case_decide; [|done]. by intros [= <-].
Qed.

Lemma add_values_keys items namePrefix t :
  keys_match_names t → keys_match_names (add_values items namePrefix t).
Proof.
  revert t. induction items as [|value items IH]; intros t Hinv; [done|].
  apply IH. by apply add_keys.
Qed.

Lemma add_items_keys (items : list (TestItem T)) t :
  keys_match_names t → keys_match_names (add_items items t).
Proof.
  revert t. induction items as [|testItem items IH]; intros t Hinv; [done|].
  apply IH. by apply add_item_keys.
Qed.

Lemma run_store pf t : m_testItems (run pf t).1 = m_testItems t.
Proof.
  unfold run, runTests. destruct (m_testCallback t) as [cb|]; [|done].
  destruct (runTests_loop pf cb (traverse pf (m_testItems t)) 1 [] 0)
    as [[[results passedTests] tick] [e|]]; done.
Qed.

Lemma apply_operation_keys t (op : Operation T) :
  keys_match_names t → keys_match_names (apply_operation t op).
Proof.
  intros Hinv. destruct op; simpl.
  - by apply add_keys.
  - by apply add_item_keys.
  - by apply add_values_keys.
  - by apply add_items_keys.
  - intros k ti. simpl. intros [_ Hk]%lookup_delete_Some. by apply Hinv.
  - intros k ti. simpl. intros [Hk _]%map_lookup_filter_Some. by apply Hinv.
  - done.
  - intros k ti. simpl. intros [(_ & ti' & Hk & ->)|[_ Hk]]%lookup_alter_Some;
      simpl; by apply Hinv.
  - intros k ti. simpl. intros (ti' & <- & Hk)%lookup_fmap_Some.
    destruct (pred ti'); simpl; by apply Hinv.
  - intros k ti. simpl. by rewrite lookup_empty.
  - intros k ti. rewrite run_store. by apply Hinv.
Qed.

Lemma apply_operations_keys (ops : list (Operation T)) t :
  keys_match_names t → keys_match_names (apply_operations ops t).
Proof.
  revert t. induction ops as [|op ops IH]; intros t Hinv; [done|].
  apply IH. by apply apply_operation_keys.
Qed.

End store.
(** ** The execution engine *)

Section execution_engine.
Context {T : Type}.
Implicit Types (items : list (string * TestItem T)) (t : RySimpleRangeTester T)
  (pf : Platform T) (cb : TestCallback T) (results : list TestResult).

Lemma duration_cast_ms_nonneg ns : 0 ≤ ns → 0 ≤ duration_cast_ms ns.
Proof. intros. unfold duration_cast_ms. apply Z.quot_pos; lia. Qed.

Lemma passed_count_app results1 results2 :
  length (List.filter success (results1 ++ results2)) =
  (length (List.filter success results1) + length (List.filter success results2))%nat.
Proof. by rewrite List.filter_app, length_app. Qed.

Lemma runTests_loop_returned pf cb items tick results passedTests results' passedTests' tick' :
  runTests_loop pf cb items tick results passedTests = (results', passedTests', tick', None) →
  ∃ new, results' = results ++ new ∧
         passedTests' = (passedTests + length (List.filter success new))%nat ∧
         Forall2 (matches_entry cb) items new.
Proof.
  revert tick results passedTests.
  induction items as [|[n ti] rest IH]; intros tick results passedTests Hrun; simpl in Hrun.
  - injection Hrun as <- <- <-. exists []. rewrite app_nil_r. split_and!; [done|simpl; lia|constructor].
  - destruct (try_callback cb ti) as [[s e]|ex] eqn:Hcb; [|done].
    apply IH in Hrun as (new & -> & -> & Hall).
    eexists (_ :: new). rewrite <- app_assoc. split_and!; [done| |].
    + simpl. destruct s; simpl; lia.
    + constructor; [|done]. split_and!; simpl; try done.
      apply duration_cast_ms_nonneg.
      pose proof (steady_clock_mono pf tick (S tick)). lia.
Qed.

Lemma runTests_loop_completes pf cb items tick results passedTests :
  Forall (λ entry, cb (item entry.2) ≠ Throws OtherObject) items →
  ∃ results' passedTests' tick',
    runTests_loop pf cb items tick results passedTests = (results', passedTests', tick', None).
Proof.
  intros Hall. revert tick results passedTests.
  induction Hall as [|[n ti] rest Hx _ IH]; intros tick results passedTests; simpl.
  - eauto.
  - unfold try_callback. simpl in Hx.
    destruct (cb (item ti)) as [b|[what|]]; [apply IH|apply IH|done].
Qed.

Lemma runTests_loop_propagated pf cb items tick results passedTests results' passedTests' tick' e :
  runTests_loop pf cb items tick results passedTests = (results', passedTests', tick', Some e) →
  e = OtherObject ∧ Exists (λ entry, cb (item entry.2) = Throws OtherObject) items.
Proof.
  revert tick results passedTests.
  induction items as [|[n ti] rest IH]; intros tick results passedTests Hrun; simpl in Hrun; [done|].
  destruct (try_callback cb ti) as [[s er]|ex] eqn:Hcb.
  - apply IH in Hrun as [-> ?]. split; [done|by apply Exists_cons_tl].
  - injection Hrun as <- <- <- <-. unfold try_callback in Hcb.
    destruct (cb (item ti)) as [b|[what|]] eqn:Hinv; try done.
    injection Hcb as <-. split; [done|]. by apply Exists_cons_hd.
Qed.

Implicit Types (m : gmap string (TestItem T)).

Lemma getPassedCount_le t : (getPassedCount t ≤ length (m_results t))%nat.
Proof. unfold getPassedCount. apply List.filter_length_le. Qed.

Lemma all_passed_iff results :
  length (List.filter success results) = length results ↔
  Forall (λ r, success r = true) results.
Proof.
  induction results as [|r rs IH]; simpl.
  - split; [constructor|done].
  - pose proof (List.filter_length_le success rs).
    destruct (success r) eqn:Hr; simpl.
    + split.
      * intros Hlen. constructor; [done|]. apply IH. lia.
      * intros Hall. apply Forall_cons in Hall as [_ Hall]. apply IH in Hall. lia.
    + split; [lia|]. intros Hall. apply Forall_cons in Hall as [Hr' _]. congruence.
Qed.

Lemma traverse_elem pf m n ti : (n, ti) ∈ traverse pf m ↔ m !! n = Some ti.
Proof. rewrite (traverse_perm pf m). apply elem_of_map_to_list. Qed.

Lemma traverse_length pf m : length (traverse pf m) = size m.
Proof. rewrite (traverse_perm pf m). apply length_map_to_list. Qed.


Lemma traverse_empty pf : traverse pf ∅ = [].
Proof. apply Permutation_nil_r. rewrite (traverse_perm pf ∅). by rewrite map_to_list_empty. Qed.

Lemma run_returned pf t t' b :
  run pf t = (t', Returned b) →
  ∃ cb, m_testCallback t = Some cb ∧
        m_testItems t' = m_testItems t ∧
        m_testCallback t' = Some cb ∧
        Forall2 (matches_entry cb) (traverse pf (m_testItems t)) (m_results t') ∧
        b = (getPassedCount t' =? size (m_testItems t))%nat.
Proof.
  unfold run, runTests. destruct (m_testCallback t) as [cb|] eqn:Hcb; [|done].
  destruct (runTests_loop pf cb (traverse pf (m_testItems t)) 1 [] 0)
    as [[[results passedTests] tick] [e|]] eqn:Hloop; [done|].
  intros [= <- <-]. exists cb. simpl.
  apply runTests_loop_returned in Hloop as (new & -> & _ & Hall).
  by split_and!.
Qed.

Lemma run_completes pf t cb :
  m_testCallback t = Some cb →
  (∀ n ti, m_testItems t !! n = Some ti → cb (item ti) ≠ Throws OtherObject) →
  ∃ t' b, run pf t = (t', Returned b).
Proof.
  intros Hcb Hstd. unfold run, runTests. rewrite Hcb.
  destruct (runTests_loop_completes pf cb (traverse pf (m_testItems t)) 1 [] 0)
    as (results & passedTests & tick & ->); [|eauto].
  apply Forall_forall. intros [n ti] Hin%traverse_elem. by eapply Hstd.
Qed.

Lemma result_of_entry pf cb m results n ti :
  Forall2 (matches_entry cb) (traverse pf m) results →
  m !! n = Some ti →
  ∃ r, r ∈ results ∧ matches_entry cb (n, ti) r.
Proof.
  intros Hall Hin%(traverse_elem pf).
  apply list_elem_of_lookup in Hin as [i Hi].
  destruct (Forall2_lookup_l _ _ _ _ _ Hall Hi) as (r & Hr & Hm).
  exists r. split; [by eapply list_elem_of_lookup_2|done].
Qed.

Lemma entry_of_result pf cb m results r :
  Forall2 (matches_entry cb) (traverse pf m) results →
  r ∈ results →
  ∃ ti, m !! res_name r = Some ti ∧ matches_entry cb (res_name r, ti) r.
Proof.
  intros Hall [i Hi]%list_elem_of_lookup.
  destruct (Forall2_lookup_r _ _ _ _ _ Hall Hi) as ([n ti] & Hentry & Hm).
  pose proof Hm as (Hname & _). simpl in Hname. subst n.
  exists ti. split; [|done].
  apply (traverse_elem pf). by eapply list_elem_of_lookup_2.
Qed.

Lemma results_names pf cb m results :
  Forall2 (matches_entry cb) (traverse pf m) results →
  res_name <$> results = (traverse pf m).*1.
Proof.
  induction 1 as [|[n ti] r items rs Hm _ IH]; [done|].
  destruct Hm as (Hn & _). simpl in Hn. rewrite !fmap_cons. simpl. by rewrite Hn, IH.
Qed.
Lemma run_returned_value pf t t' b :
  run pf t = (t', Returned b) →
  (b = true ↔ getFailedCount t' = 0%nat) ∧
  (b = true ↔ Forall (λ r, success r = true) (m_results t')) ∧
  length (m_results t') = size (m_testItems t').
Proof.
  intros (cb & _ & Hitems & _ & Hall & ->)%run_returned.
  assert (length (m_results t') = size (m_testItems t)) as Hlen.
  { rewrite <- (Forall2_length _ _ _ Hall). apply traverse_length. }
  pose proof (getPassedCount_le t') as Hle.
  rewrite Hitems. split_and!; [| |done].
  - rewrite Nat.eqb_eq. unfold getFailedCount. lia.
  - rewrite Nat.eqb_eq, <- Hlen. apply all_passed_iff.
Qed.
Lemma runTests_loop_durations pf cb items tick results passedTests :
  Forall (λ r, 0 ≤ duration r) results →
  Forall (λ r, 0 ≤ duration r) (runTests_loop pf cb items tick results passedTests).1.1.1.
Proof.
  revert tick results passedTests.
  induction items as [|[n ti] rest IH]; intros tick results passedTests Hres; simpl; [done|].
  destruct (try_callback cb ti) as [[s e]|ex]; [|done].
  apply IH, Forall_app. split; [done|]. constructor; [|done]. simpl.
  apply duration_cast_ms_nonneg.
  pose proof (steady_clock_mono pf tick (S tick)). lia.
Qed.

Lemma run_durations pf t :
  Forall (λ r, 0 ≤ duration r) (m_results t) →
  Forall (λ r, 0 ≤ duration r) (m_results (run pf t).1).
Proof.
  intros Hres. unfold run, runTests. destruct (m_testCallback t) as [cb|]; [|done].
  pose proof (runTests_loop_durations pf cb (traverse pf (m_testItems t)) 1 [] 0
                (Forall_nil_2 _)) as Hloop.
  destruct (runTests_loop pf cb (traverse pf (m_testItems t)) 1 [] 0)
    as [[[results passedTests] tick] [e|]]; done.
Qed.

Lemma add_values_results (items : list T) namePrefix t :
  m_results (add_values items namePrefix t) = m_results t.
Proof.
  revert t. induction items as [|value items IH]; intros t; [done|].
  exact (IH (add value (generateUniqueName t namePrefix) "" t)).
Qed.

Lemma add_items_results (items : list (TestItem T)) t :
  m_results (add_items items t) = m_results t.
Proof.
  revert t. induction items as [|testItem items IH]; intros t; [done|].
  exact (IH (add_item testItem t)).
Qed.

Lemma reachable_durations (ops : list (Operation T)) t :
  Forall (λ r, 0 ≤ duration r) (m_results t) →
  Forall (λ r, 0 ≤ duration r) (m_results (apply_operations ops t)).
Proof.
  revert t. induction ops as [|op ops IH]; intros t Hres; [done|].
  apply IH. destruct op; simpl; try done.
  - by rewrite add_values_results.
  - by rewrite add_items_results.
  - by apply run_durations.
Qed.
End execution_engine.
(** ** The report *)

Section report.
Implicit Types (results pre : list TestResult) (r x : TestResult).

Lemma lookup_snoc_case pre x j r :
  (pre ++ [x]) !! j = Some r →
  (j < length pre)%nat ∧ pre !! j = Some r ∨ j = length pre ∧ r = x.
Proof.
  intros [Hj|[Hj Hx]]%lookup_app_Some.
  - left. split; [by eapply lookup_lt_Some|done].
  - right. destruct (j - length pre)%nat as [|k] eqn:Hk; simpl in Hx; [|done].
    split; [lia|congruence].
Qed.

Lemma first_fastest_snoc pre x i r :
  first_fastest pre i r →
  if duration_lt x r then first_fastest (pre ++ [x]) (length pre) x
  else first_fastest (pre ++ [x]) i r.
Proof.
  intros (Hi & Hmin & Hfirst). unfold duration_lt.
  destruct (Z.ltb_spec (duration x) (duration r)) as [Hlt|Hge].
  - split_and!.
    + by rewrite lookup_app_r, Nat.sub_diag.
    + intros j r' [[_ Hj]|[_ ->]]%lookup_snoc_case; [|lia].
      specialize (Hmin _ _ Hj). lia.
    + intros j r' Hlt' [[_ Hj]|[-> _]]%lookup_snoc_case; [|lia].
      specialize (Hmin _ _ Hj). lia.
  - split_and!.
    + by apply lookup_app_l_Some.
    + intros j r' [[_ Hj]|[_ ->]]%lookup_snoc_case; [by eapply Hmin|done].
    + intros j r' Hlt' [[_ Hj]|[-> _]]%lookup_snoc_case; [by eapply Hfirst|].
      apply lookup_lt_Some in Hi. lia.
Qed.

Lemma last_slowest_snoc pre x i r :
  last_slowest pre i r →
  if duration_lt x r then last_slowest (pre ++ [x]) i r
  else last_slowest (pre ++ [x]) (length pre) x.
Proof.
  intros (Hi & Hmax & Hlast). unfold duration_lt.
  destruct (Z.ltb_spec (duration x) (duration r)) as [Hlt|Hge].
  - split_and!.
    + by apply lookup_app_l_Some.
    + intros j r' [[_ Hj]|[_ ->]]%lookup_snoc_case; [by eapply Hmax|lia].
    + intros j r' Hlt' [[_ Hj]|[_ ->]]%lookup_snoc_case; [by eapply Hlast|done].
  - split_and!.
    + by rewrite lookup_app_r, Nat.sub_diag.
    + intros j r' [[_ Hj]|[_ ->]]%lookup_snoc_case; [|lia].
      specialize (Hmax _ _ Hj). lia.
    + intros j r' Hlt' [[Hj _]|[-> _]]%lookup_snoc_case; lia.
Qed.

Lemma minmax_scan_spec l pre imn xmn imx xmx :
  first_fastest pre imn xmn →
  last_slowest pre imx xmx →
  ∃ a ra b rb,
    minmax_scan duration_lt l (length pre) (imn, xmn) (imx, xmx) = (a, b) ∧
    first_fastest (pre ++ l) a ra ∧ last_slowest (pre ++ l) b rb.
Proof.
  revert pre imn xmn imx xmx.
  induction l as [|x l IH]; intros pre imn xmn imx xmx Hmn Hmx; simpl.
  - rewrite app_nil_r. by eauto 10.
  - apply (first_fastest_snoc _ x) in Hmn. apply (last_slowest_snoc _ x) in Hmx.
    replace (S (length pre)) with (length (pre ++ [x])) by (rewrite length_app; simpl; lia).
    replace (pre ++ x :: l) with ((pre ++ [x]) ++ l) by by rewrite <- app_assoc.
    destruct (duration_lt x xmn), (duration_lt x xmx); by apply IH.
Qed.

Lemma minmax_element_spec r results :
  ∃ a ra b rb,
    minmax_element duration_lt (r :: results) = (a, b) ∧
    first_fastest (r :: results) a ra ∧ last_slowest (r :: results) b rb.
Proof.
  apply (minmax_scan_spec results [r] 0%nat r 0%nat r).
  - split_and!; [done| |intros; lia].
    intros [|j] r'; simpl; [by intros [= ->]|done].
  - split_and!; [done| |].
    + intros [|j] r'; simpl; [by intros [= ->]|done].
    + intros [|j] r' ?; simpl; [lia|done].
Qed.

Lemma accumulate_durations_from a results :
  foldl (λ sum result, sum + duration result) a results = a + accumulate_durations results.
Proof.
  unfold accumulate_durations. revert a.
  induction results as [|r rs IH]; intros a; simpl; [lia|].
  rewrite (IH (a + duration r)), (IH (0 + duration r)). lia.
Qed.

Lemma accumulate_durations_cons r results :
  accumulate_durations (r :: results) = duration r + accumulate_durations results.
Proof. unfold accumulate_durations at 1. simpl. rewrite accumulate_durations_from. lia. Qed.

Lemma accumulate_durations_nonneg results :
  Forall (λ r, 0 ≤ duration r) results → 0 ≤ accumulate_durations results.
Proof.
  induction 1 as [|r rs Hr _ IH]; [done|]. rewrite accumulate_durations_cons. lia.
Qed.

Lemma slow_threshold_lt avg d : slow_threshold avg < d ↔ 3 * avg < 2 * d.
Proof. unfold slow_threshold. Z.to_euclidean_division_equations. lia. Qed.

End report.

(** ** The claims about the Store and the name generator *)

Section store_claims.
Context {T : Type}.
Implicit Types (t : RySimpleRangeTester T).

(** C5: for every prefix and every Store, [generateUniqueName] returns
    ["{prefix}_{n}"] for the least [n], counted upward from the Store size
    plus one, whose candidate is not a key of the Store (every candidate
    before it is a key); the loop body runs at most size plus one times,
    and the returned name differs from every key present in the Store. *)
Theorem generateUniqueName_fresh t baseName :
  ∃ n, (size (m_testItems t) + 1 ≤ n ≤ 2 * size (m_testItems t) + 1)%nat ∧
       generateUniqueName t baseName = baseName +:+ "_" +:+ pretty n ∧
       (∀ j, (size (m_testItems t) + 1 ≤ j < n)%nat →
             is_Some (m_testItems t !! (baseName +:+ "_" +:+ pretty j))) ∧
       m_testItems t !! generateUniqueName t baseName = None ∧
       ∀ k, is_Some (m_testItems t !! k) → generateUniqueName t baseName ≠ k.
Proof.
  destruct (generateUniqueName_spec t baseName) as (n & Hn & Heq & Hnone & Hbetween).
  exists n. split_and!; [lia|lia|done|done|apply generateUniqueName_absent|].
  intros k [ti Hk] <-. by rewrite generateUniqueName_absent in Hk.
Qed.

(** C4: [add] inserts only if the key is absent.  Whatever is added, every
    entry already in the Store stays as it is; adding under an explicit
    name that is already a key changes nothing at all, so a name added
    twice keeps the value, description and flag of the first call; and
    after any sequence of [add] calls with explicit names on a new tester
    the Store holds, for each name, the entry of the first call with that
    name and nothing else: one entry per distinct name. *)
Theorem add_is_insert_if_absent :
  (∀ t (c : AddCall T) k ti,
     m_testItems t !! k = Some ti → m_testItems (apply_add t c) !! k = Some ti) ∧
  (∀ t (c : AddCall T) ti,
     empty_string (call_name c) = false →
     m_testItems t !! call_name c = Some ti → apply_add t c = t) ∧
  (∀ t (c1 c2 : AddCall T),
     empty_string (call_name c1) = false → call_name c2 = call_name c1 →
     apply_add (apply_add t c1) c2 = apply_add t c1) ∧
  (∀ (calls : list (AddCall T)),
     Forall (λ c, empty_string (call_name c) = false) calls →
     (∀ k, m_testItems (add_all calls new_tester) !! k = first_added k calls) ∧
     dom (m_testItems (add_all calls new_tester)) = list_to_set (call_name <$> calls) ∧
     size (m_testItems (add_all calls new_tester)) =
       length (remove_dups (call_name <$> calls)) ∧
     (NoDup (call_name <$> calls) →
      size (m_testItems (add_all calls new_tester)) = length calls)).
Proof.
  split_and!.
  - intros t [value n d|testItem] k ti Hk;
      [by apply add_lookup_present|by apply add_item_lookup_present].
  - apply apply_add_present.
  - intros t c1 c2 Hne Heq.
    assert (is_Some (m_testItems (apply_add t c1) !! call_name c1)) as [ti Hti].
    { rewrite apply_add_lookup by done.
      destruct (m_testItems t !! call_name c1); [by eauto|].
      rewrite decide_True by done. by eauto. }
    apply (apply_add_present _ _ ti); by rewrite Heq.
  - intros calls Hall.
    assert (∀ k, m_testItems (add_all calls new_tester) !! k = first_added k calls) as Hlk.
    { intros k. rewrite add_all_lookup by done. simpl. by rewrite lookup_empty. }
    assert (dom (m_testItems (add_all calls new_tester)) =
            list_to_set (call_name <$> calls)) as Hdom.
    { apply set_eq. intros k.
      by rewrite elem_of_dom, Hlk, first_added_is_Some, elem_of_list_to_set. }
    split_and!; [done|done| |].
    + rewrite <- size_dom, Hdom.
      rewrite <- (size_list_to_set (C := gset string) (remove_dups _))
        by apply NoDup_remove_dups.
      f_equal. apply set_eq. intros k.
      by rewrite !elem_of_list_to_set, elem_of_remove_dups.
    + intros Hnd. rewrite <- size_dom, Hdom, size_list_to_set by done.
      by rewrite length_fmap.
Qed.

(** C10: after every sequence of public member function calls on a new
    tester ([add] in all its overloads, [remove], [removeIf], [forEach],
    [expect], [expectIf], [clear], [run]) every entry of the Store is filed
    under the key that equals its [name] field, and the calls keep this
    true from any state in which it holds; in particular [add] with an
    empty name stores the item under the generated name with the generated
    name written into it. *)
Theorem store_keys_match_names :
  (∀ ops : list (Operation T), keys_match_names (apply_operations ops new_tester)) ∧
  (∀ (ops : list (Operation T)) t,
     keys_match_names t → keys_match_names (apply_operations ops t)) ∧
  (∀ t value d,
     m_testItems (add value "" d t) !! generateUniqueName t "Test" =
     Some (mkTestItem value (generateUniqueName t "Test") d false)) ∧
  (∀ t testItem,
     name testItem = "" →
     m_testItems (add_item testItem t) !! generateUniqueName t "Test" =
     Some (mkTestItem (item testItem) (generateUniqueName t "Test")
             (description testItem) (expectedToFail testItem))).
Proof.
  split_and!.
  - intros ops. apply apply_operations_keys. intros k ti. simpl. by rewrite lookup_empty.
  - apply apply_operations_keys.
  - intros t value d. simpl.
    by rewrite try_emplace_lookup, generateUniqueName_absent, decide_True.
  - intros t testItem Hname. simpl. rewrite Hname. simpl.
    by rewrite try_emplace_lookup, generateUniqueName_absent, decide_True.
Qed.

End store_claims.

(** ** The claims about runs *)

Section run_claims.
Context {T : Type}.
Implicit Types (t : RySimpleRangeTester T) (pf : Platform T) (cb : TestCallback T).

(** C1: for every Store and every set predicate, whenever [run()] returns
    a value, that value is [true] if and only if [getFailedCount()] is [0]
    after the run, that is, if and only if every Result of the Result Log
    is successful; the Result Log then has one Result per item.  [run()]
    does return whenever no predicate invocation throws an object that is
    not a [std::exception]. *)
Theorem run_true_iff_no_failed pf t cb :
  m_testCallback t = Some cb →
  (∀ t' b, run pf t = (t', Returned b) →
     (b = true ↔ getFailedCount t' = 0%nat) ∧
     (b = true ↔ Forall (λ r, success r = true) (m_results t')) ∧
     length (m_results t') = size (m_testItems t')) ∧
  ((∀ n ti, m_testItems t !! n = Some ti → cb (item ti) ≠ Throws OtherObject) →
   ∃ t' b, run pf t = (t', Returned b)).
Proof.
  intros Hcb. split; [|by apply run_completes].
  intros t' b Hrun. by apply (run_returned_value pf t).
Qed.

(** C2: after [expect(name)] on an item of the Store, a run in which the
    predicate returns [true] for that item's value gives the item a failing
    Result with error ["Test unexpectedly passed"], and a run in which it
    returns [false] gives it a passing Result; an item that is not marked
    and for which the predicate returns [false] gets a failing Result with
    error ["Test failed"]. *)
Theorem expect_inverts_outcome pf t cb n ti :
  m_testItems t !! n = Some ti →
  (∀ n' ti', m_testItems t !! n' = Some ti' → cb (item ti') ≠ Throws OtherObject) →
  ∃ t' b, run pf (forEach cb (expect n t)) = (t', Returned b) ∧
    (∃ r, r ∈ m_results t' ∧ res_name r = n) ∧
    (∀ r, r ∈ m_results t' → res_name r = n →
       (cb (item ti) = Returns true →
          success r = false ∧ error r = "Test unexpectedly passed") ∧
       (cb (item ti) = Returns false → success r = true)) ∧
    (∀ r n' ti', r ∈ m_results t' → res_name r = n' →
       m_testItems (expect n t) !! n' = Some ti' →
       expectedToFail ti' = false → cb (item ti') = Returns false →
       success r = false ∧ error r = "Test failed").
Proof.
  intros Hn Hstd.
  assert (m_testItems (forEach cb (expect n t)) !! n = Some (set_expectedToFail ti)) as Hn'.
  { simpl. by rewrite lookup_alter_eq, Hn. }
  destruct (run_completes pf (forEach cb (expect n t)) cb) as (t' & b & Hrun); [done| |].
  { simpl. intros n' ti' Hlk. rewrite lookup_alter in Hlk.
    case_decide; [|by eapply Hstd]. subst n'. rewrite Hn in Hlk.
    injection Hlk as <-. simpl. by eapply Hstd. }
  exists t', b. split; [done|].
  apply run_returned in Hrun as (cb' & [= <-] & _ & _ & Hall & _).
  split_and!.
  - destruct (result_of_entry pf cb _ _ n _ Hall Hn') as (r & Hr & Hname & _). eauto.
  - intros r Hr Hname.
    destruct (entry_of_result pf cb _ _ r Hall Hr) as (ti' & Hlk & _ & _ & _ & Htry & _).
    rewrite Hname, Hn' in Hlk. injection Hlk as <-.
    unfold try_callback in Htry. simpl in Htry.
    split; intros Hinv; rewrite Hinv in Htry; simpl in Htry;
      injection Htry as Hs He; first [split; congruence | congruence].
  - intros r n' ti' Hr Hname Hlk' Hflag Hinv.
    destruct (entry_of_result pf cb _ _ r Hall Hr) as (ti'' & Hlk & _ & _ & _ & Htry & _).
    rewrite Hname in Hlk. simpl in Hlk, Hlk'. rewrite Hlk' in Hlk. injection Hlk as <-.
    unfold try_callback in Htry. simpl in Htry. rewrite Hinv, Hflag in Htry.
    injection Htry as Hs He. split; congruence.
Qed.

(** X26: when the predicate throws a [std::exception] with message [what]
    for an item, the iteration appends a Result with [success = false] and
    [error = what], whatever the item's [expectedToFail] flag, and the loop
    goes on with the remaining items; in every run that returns, the Result
    Log holds one Result per Store entry in traversal order, the Result of
    that item is the failing one with the message, and [run()] returns
    [false].  Such a fault does not end the run: the run returns whenever
    no predicate invocation throws an object that is not a
    [std::exception]. *)
Theorem fault_is_captured pf t cb n ti what :
  m_testCallback t = Some cb →
  m_testItems t !! n = Some ti →
  cb (item ti) = Throws (StdException what) →
  (∀ rest tick results passedTests,
     runTests_loop pf cb ((n, ti) :: rest) tick results passedTests =
     runTests_loop pf cb rest (S (S tick))
       (results ++
        [mkTestResult n false what
           (duration_cast_ms (steady_clock_now pf (S tick) - steady_clock_now pf tick))
           (expectedToFail ti) (description ti)])
       passedTests) ∧
  (∀ t' b, run pf t = (t', Returned b) →
     b = false ∧
     res_name <$> m_results t' = (traverse pf (m_testItems t)).*1 ∧
     (∃ r, r ∈ m_results t' ∧ res_name r = n) ∧
     (∀ r, r ∈ m_results t' → res_name r = n →
        success r = false ∧ error r = what ∧
        wasExpectedToFail r = expectedToFail ti)) ∧
  ((∀ n' ti', m_testItems t !! n' = Some ti' → cb (item ti') ≠ Throws OtherObject) →
   ∃ t' b, run pf t = (t', Returned b)).
Proof.
  intros Hcb Hn Hinv.
  assert (try_callback cb ti = Returned (false, what)) as Htry.
  { unfold try_callback. by rewrite Hinv. }
  split_and!.
  - intros rest tick results passedTests. simpl. by rewrite Htry.
  - intros t' b Hrun.
    destruct (run_returned_value pf t t' b Hrun) as (_ & Hsucc & _).
    apply run_returned in Hrun as (cb' & Hcb' & _ & _ & Hall & _).
    rewrite Hcb in Hcb'. injection Hcb' as <-.
    assert (∀ r, r ∈ m_results t' → res_name r = n →
              success r = false ∧ error r = what ∧
              wasExpectedToFail r = expectedToFail ti) as Hres.
    { intros r Hr Hname.
      destruct (entry_of_result pf cb _ _ r Hall Hr) as (ti' & Hlk & _ & Hflag & _ & Htry' & _).
      rewrite Hname, Hn in Hlk. injection Hlk as <-. simpl in *.
      rewrite Htry in Htry'. injection Htry' as Hs He. by split_and!. }
    destruct (result_of_entry pf cb _ _ n _ Hall Hn) as (r & Hr & Hname & _).
    simpl in Hname. split_and!; [|by eapply results_names|by eauto|done].
    destruct b; [|done]. destruct Hsucc as [Hsucc _].
    specialize (Hsucc eq_refl). rewrite Forall_forall in Hsucc.
    destruct (Hres r Hr Hname) as (Hfalse & _). rewrite (Hsucc r Hr) in Hfalse. done.
  - by apply run_completes.
Qed.

(** C6: when no predicate has been set, [runTests] and [run] end with the
    exception [std::runtime_error("Test callback not set")] leaving the
    call, and the tester is left as it was: no Result is produced and the
    Result Log is not touched. *)
Theorem run_without_callback pf t :
  m_testCallback t = None →
  runTests pf t = (t, Propagated (StdException "Test callback not set")) ∧
  run pf t = (t, Propagated (StdException "Test callback not set")).
Proof. intros Hcb. unfold run, runTests. by rewrite Hcb. Qed.

(** C9: [clear()] empties the Store and the Result Log, and with a
    predicate still set a following [run()] returns [true] with
    [getPassedCount() = 0], an empty Result Log and an empty Store. *)
Theorem clear_then_run pf t cb :
  m_testCallback t = Some cb →
  m_testItems (clear t) = ∅ ∧ m_results (clear t) = [] ∧
  ∃ t', run pf (clear t) = (t', Returned true) ∧
        getPassedCount t' = 0%nat ∧ m_results t' = [] ∧ m_testItems t' = ∅.
Proof.
  intros Hcb. split_and!; [done|done|].
  unfold run, runTests, clear. simpl. rewrite Hcb, traverse_empty. simpl.
  exists (mkTester ∅ (Some cb) []).
  unfold getPassedCount. simpl. rewrite map_size_empty. by split_and!.
Qed.

(** C8, amended: [getPassRate()] returns [0.0] whenever the Result Log is
    empty, and otherwise the [double] value of
    [double(passedCount) / totalCount * 100.0] with both counts taken over
    the Result Log; the Store is not consulted.  Right after a run that
    returned, the Result Log is empty exactly when the Store is. *)
Theorem getPassRate_over_result_log t :
  (m_results t = [] → getPassRate_double t = 0%float) ∧
  (m_results t ≠ [] →
   getPassRate_double t =
   PrimFloat.mul
     (PrimFloat.div (to_double (getPassedCount t)) (to_double (length (m_results t))))
     100%float) ∧
  (∀ t1 t2 : RySimpleRangeTester T,
     m_results t1 = m_results t2 → getPassRate_double t1 = getPassRate_double t2) ∧
  (∀ pf t0 b, run pf t0 = (t, Returned b) → (m_results t = [] ↔ m_testItems t = ∅)).
Proof.
  split_and!.
  - intros Hlog. unfold getPassRate_double. by rewrite Hlog.
  - intros Hlog. unfold getPassRate_double. by destruct (m_results t).
  - intros t1 t2 Hlog. unfold getPassRate_double, getPassedCount. by rewrite Hlog.
  - intros pf t0 b Hrun.
    destruct (run_returned_value pf t0 t b Hrun) as (_ & _ & Hlen).
    rewrite <- length_zero_iff_nil, Hlen. apply map_size_empty_iff.
Qed.

End run_claims.

(** ** The claim about the report *)

(** C7, amended: for every non-empty Result Log with non-negative
    durations that add up to less than [2^51] ms (the range in which the
    [double] product in the report is exact), the performance-analysis
    block shows as fastest the first
    Result of least duration and as slowest the last Result of greatest
    duration, both in Result Log order; the average is the total duration
    divided by the number of Results with integer division; and the block
    lists, in Result Log order, exactly the Results whose duration exceeds
    1.5 times that average, which include every Result whose duration
    exceeds 1.5 times the exact mean. *)
Theorem performance_analysis_selection (results : list TestResult) :
  results ≠ [] →
  Forall (λ r, 0 ≤ duration r) results →
  accumulate_durations results < 2 ^ 51 →
  ∃ pa i_min i_max,
    performanceAnalysis results (accumulate_durations results) = Some pa ∧
    first_fastest results i_min (fastest pa) ∧
    last_slowest results i_max (slowest pa) ∧
    avgTime pa = accumulate_durations results / Z.of_nat (length results) ∧
    slowTests pa = List.filter (λ r, 3 * avgTime pa <? 2 * duration r) results ∧
    (∀ r, r ∈ slowTests pa ↔ r ∈ results ∧ 3 * avgTime pa < 2 * duration r) ∧
    (∀ r, r ∈ results →
          3 * accumulate_durations results < 2 * duration r * Z.of_nat (length results) →
          r ∈ slowTests pa).
Proof.
  intros Hne Hdur Hsum. destruct results as [|r0 rs]; [done|].
  pose proof (accumulate_durations_nonneg _ Hdur) as Hnonneg.
  destruct (minmax_element_spec r0 rs) as (a & ra & b & rb & Hmm & Hmin & Hmax).
  unfold performanceAnalysis. rewrite Hmm.
  set (results := r0 :: rs) in *.
  assert (to_size_t (accumulate_durations results) = accumulate_durations results) as ->.
  { unfold to_size_t. apply Z.mod_small. lia. }
  set (avg := accumulate_durations results / Z.of_nat (length results)).
  assert (List.filter (λ result, slow_threshold avg <? duration result) results =
          List.filter (λ r, 3 * avg <? 2 * duration r) results) as Hfilter.
  { apply List.filter_ext. intros r.
    pose proof (slow_threshold_lt avg (duration r)).
    destruct (Z.ltb_spec (slow_threshold avg) (duration r)),
             (Z.ltb_spec (3 * avg) (2 * duration r)); lia. }
  assert (∀ r, r ∈ List.filter (λ r, 3 * avg <? 2 * duration r) results ↔
               r ∈ results ∧ 3 * avg < 2 * duration r) as Hmem.
  { intros r. by rewrite !list_elem_of_In, List.filter_In, Z.ltb_lt. }
  eexists _, a, b. split; [done|]. cbn [fastest slowest avgTime slowTests].
  pose proof Hmin as (Ha & _). pose proof Hmax as (Hb & _).
  rewrite (nth_lookup_Some _ _ _ _ Ha), (nth_lookup_Some _ _ _ _ Hb).
  split_and!; [done|done|done|done| |].
  - intros r. by rewrite Hfilter.
  - intros r Hr Hexceeds. rewrite Hfilter. apply Hmem. split; [done|].
    assert (0 < Z.of_nat (length results)) as Hlen by (simpl; lia).
    pose proof (Z.mul_div_le (accumulate_durations results) _ Hlen) as Hdiv.
    fold avg in Hdiv. nia.
Qed.

(** ** The statements at concrete inputs *)

(** With one item named ["Test_2"] in the Store the first candidate,
    ["Test_2"], is taken and the loop moves on to ["Test_3"]. *)
Example generateUniqueName_skips_taken :
  generateUniqueName (add 1 "Test_2" "" (new_tester (T := Z))) "Test" = "Test_3".
Proof. reflexivity. Qed.

(** The scenario of the specification: ["a"] is [1], ["b"] is [-1] and
    expected to fail, the predicate is [x > 0]; both Results pass and
    [run()] returns [true]. *)
Example scenario_positive :
  ∃ t', run example_platform (forEach positive (expect "b" sign_tester)) = (t', Returned true) ∧
        success <$> m_results t' = [true; true].
Proof. eexists. split; [vm_compute; reflexivity|reflexivity]. Qed.

Lemma generateUniqueName_fresh_witness :
  ∃ n : nat,
    generateUniqueName scenario_tester "Test" = "Test" +:+ "_" +:+ pretty n ∧
    m_testItems scenario_tester !! generateUniqueName scenario_tester "Test" = None.
Proof.
  destruct (generateUniqueName_fresh scenario_tester "Test") as (n & _ & Heq & _ & Hnone & _).
  exists n. split; [exact Heq|exact Hnone].
Defined.

Lemma add_is_insert_if_absent_witness :
  Forall (λ c, empty_string (call_name c) = false) example_calls ∧
  size (m_testItems (add_all example_calls new_tester)) =
  length (remove_dups (call_name <$> example_calls)).
Proof.
  assert (Forall (λ c : AddCall Z, empty_string (call_name c) = false) example_calls) as Hall.
  { repeat constructor. }
  split; [exact Hall|].
  destruct (add_is_insert_if_absent (T := Z)) as (_ & _ & _ & Hseq).
  destruct (Hseq example_calls Hall) as (_ & _ & Hsize & _). exact Hsize.
Defined.

Lemma store_keys_match_names_witness :
  keys_match_names (apply_operations example_operations new_tester).
Proof.
  destruct (store_keys_match_names (T := Z)) as (Hnew & _). exact (Hnew example_operations).
Defined.

Lemma run_true_iff_no_failed_witness :
  m_testCallback scenario_tester = Some scenario_predicate ∧
  ∃ t', run example_platform scenario_tester = (t', Returned false) ∧
        getFailedCount t' ≠ 0%nat.
Proof.
  split; [reflexivity|].
  destruct (run_true_iff_no_failed example_platform scenario_tester scenario_predicate eq_refl)
    as [Hiff _].
  eexists. split; [vm_compute; reflexivity|].
  match goal with
  | |- getFailedCount ?t' ≠ _ =>
      destruct (Hiff t' false) as ((_ & Hback) & _); [vm_compute; reflexivity|]
  end.
  intros Hzero. discriminate (Hback Hzero).
Defined.

Lemma expect_inverts_outcome_witness :
  m_testItems sign_tester !! "b" = Some (mkTestItem (-1) "b" "" false) ∧
  ∃ t' b, run example_platform (forEach positive (expect "b" sign_tester)) = (t', Returned b) ∧
          ∀ r, r ∈ m_results t' → res_name r = "b" → success r = true.
Proof.
  split; [reflexivity|].
  destruct (expect_inverts_outcome example_platform sign_tester positive "b"
              (mkTestItem (-1) "b" "" false) eq_refl)
    as (t' & b & Hrun & _ & Hmarked & _).
  { intros n' ti' _. discriminate. }
  exists t', b. split; [exact Hrun|].
  intros r Hr Hname. by apply (Hmarked r Hr Hname).
Defined.

Lemma fault_is_captured_witness :
  m_testItems scenario_tester !! "c" = Some (mkTestItem 0 "c" "raises" false) ∧
  scenario_predicate 0 = Throws (StdException "zero has no sign") ∧
  ∃ t' b, run example_platform scenario_tester = (t', Returned b).
Proof.
  split; [reflexivity|]. split; [reflexivity|].
  destruct (fault_is_captured example_platform scenario_tester scenario_predicate "c"
              (mkTestItem 0 "c" "raises" false) "zero has no sign" eq_refl eq_refl eq_refl)
    as (_ & _ & Hreturns).
  apply Hreturns. intros n' ti' _. unfold scenario_predicate.
  destruct (item ti' =? 0); discriminate.
Defined.

Lemma run_without_callback_witness :
  m_testCallback sign_tester = None ∧
  run example_platform sign_tester =
  (sign_tester, Propagated (StdException "Test callback not set")).
Proof.
  split; [reflexivity|].
  exact (proj2 (run_without_callback example_platform sign_tester eq_refl)).
Defined.

Lemma clear_then_run_witness :
  m_testCallback scenario_tester = Some scenario_predicate ∧
  ∃ t', run example_platform (clear scenario_tester) = (t', Returned true) ∧
        getPassedCount t' = 0%nat.
Proof.
  split; [reflexivity|].
  destruct (clear_then_run example_platform scenario_tester scenario_predicate eq_refl)
    as (_ & _ & t' & Hrun & Hpassed & _).
  exists t'. split; [exact Hrun|exact Hpassed].
Defined.

Lemma getPassRate_over_result_log_witness :
  m_results two_of_three_tester ≠ [] ∧
  getPassedCount two_of_three_tester = 2%nat ∧
  length (m_results two_of_three_tester) = 3%nat ∧
  getPassRate_double two_of_three_tester = 0x1.0aaaaaaaaaaaap+6%float.
Proof.
  assert (m_results two_of_three_tester ≠ []) as Hlog by (vm_compute; discriminate).
  split; [exact Hlog|]. split; [vm_compute; reflexivity|]. split; [vm_compute; reflexivity|].
  destruct (getPassRate_over_result_log two_of_three_tester) as (_ & Hrate & _).
  rewrite (Hrate Hlog). vm_compute. reflexivity.
Defined.

Lemma performance_analysis_selection_witness :
  slow_log ≠ [] ∧ Forall (λ r, 0 ≤ duration r) slow_log ∧
  accumulate_durations slow_log < 2 ^ 51 ∧
  ∃ pa i_min i_max,
    performanceAnalysis slow_log (accumulate_durations slow_log) = Some pa ∧
    first_fastest slow_log i_min (fastest pa) ∧
    last_slowest slow_log i_max (slowest pa) ∧
    res_name <$> slowTests pa = ["c"; "d"].
Proof.
  assert (slow_log ≠ []) as Hne by discriminate.
  assert (Forall (λ r, 0 ≤ duration r) slow_log) as Hdur.
  { repeat constructor; simpl; lia. }
  assert (accumulate_durations slow_log < 2 ^ 51) as Hsum by reflexivity.
  split; [exact Hne|]. split; [exact Hdur|]. split; [exact Hsum|].
  destruct (performance_analysis_selection slow_log Hne Hdur Hsum)
    as (pa & i_min & i_max & Hpa & Hmin & Hmax & _).
  exists pa, i_min, i_max. split; [exact Hpa|]. split; [exact Hmin|]. split; [exact Hmax|].
  vm_compute in Hpa. injection Hpa as <-. reflexivity.
Defined.

(** The run of [tie_tester] produces the Result Log [tie_log], whose two
    Results have the same duration.  The first of the slowest Results is
    the one named ["a"], and the report shows the one named ["b"] as the
    slowest: the slowest Result shown is not the first of the slowest. *)
Lemma slowest_tie_counterexample :
  (∃ t' report,
     runTests example_platform tie_tester = (t', Returned report) ∧
     m_results t' = tie_log ∧
     performance report = performanceAnalysis tie_log (accumulate_durations tie_log)) ∧
  ∃ pa,
    performanceAnalysis tie_log (accumulate_durations tie_log) = Some pa ∧
    res_name (fastest pa) = "a" ∧
    res_name (slowest pa) = "b" ∧
    first_slowest tie_log 0 (mkTestResult "a" true "" 5 false "") ∧
    ¬ ∃ i, first_slowest tie_log i (slowest pa).
Proof.
  split.
  - eexists _, _. split; [vm_compute; reflexivity|]. split; reflexivity.
  - eexists. split; [vm_compute; reflexivity|]. cbn [fastest slowest res_name].
    split; [reflexivity|]. split; [reflexivity|]. split.
    + split; [reflexivity|]. split.
      * intros [|[|j]] r'; simpl; intros [= <-]; simpl; lia.
      * intros j r' Hj. lia.
    + intros [[|[|i]] (Hlk & _ & Hfirst)]; simpl in Hlk; [discriminate Hlk| |discriminate Hlk].
      specialize (Hfirst 0%nat (mkTestResult "a" true "" 5 false "")
                    (Nat.lt_0_succ 0) eq_refl).
      simpl in Hfirst. lia.
Qed.

(** After [add(1, "a")], a run with a predicate that returns [true] and
    [remove("a")], the Store is empty and [getPassRate()] is [100], not
    [0]: in [double] as the code computes it, and as an exact rational. *)
Lemma getPassRate_empty_store_counterexample :
  m_testItems passrate_tester = ∅ ∧
  (getPassRate passrate_tester == 100)%Q ∧
  ¬ (getPassRate passrate_tester == 0)%Q ∧
  getPassRate_double passrate_tester = 100%float ∧
  getPassRate_double passrate_tester ≠ 0%float.
Proof.
  split; [vm_compute; reflexivity|]. split; [vm_compute; reflexivity|].
  split; [vm_compute; discriminate|]. split; [vm_compute; reflexivity|].
  intros Hzero.
  assert (PrimFloat.eqb (getPassRate_double passrate_tester) 0%float = true) as Heqb
    by (rewrite Hzero; vm_compute; reflexivity).
  vm_compute in Heqb. discriminate Heqb.
Qed.

(** ** Further properties of the member functions *)

Section store_extras.
Context {T : Type}.
Implicit Types (t : RySimpleRangeTester T) (m : gmap string (TestItem T)).

Lemma tester_eq t1 t2 :
  m_testItems t1 = m_testItems t2 → m_testCallback t1 = m_testCallback t2 →
  m_results t1 = m_results t2 → t1 = t2.
Proof. destruct t1, t2. simpl. by intros -> -> ->. Qed.

(** X1: [remove] of a name that is not a key of the Store changes nothing:
    the tester is the same afterwards. *)
Theorem remove_absent_is_noop t n :
  m_testItems t !! n = None → remove n t = t.
Proof. intros Hn. apply tester_eq; simpl; [by apply delete_id|done|done]. Qed.

(** X2: [remove] undoes [add].  When the name under which [add] files the
    new item (the given name, or the generated one when the given name is
    empty) is not yet a key, removing that name after the [add] gives back
    the tester as it was. *)
Theorem remove_undoes_add t value n d :
  m_testItems t !! (if empty_string n then generateUniqueName t "Test" else n) = None →
  remove (if empty_string n then generateUniqueName t "Test" else n) (add value n d t) = t.
Proof.
  intros Hn. apply tester_eq; simpl; [|done|done].
  unfold try_emplace. rewrite Hn, delete_insert_eq. by apply delete_id.
Qed.

(** X3: [removeIf] keeps exactly the entries whose item does not satisfy
    the predicate, unchanged and under the same key; the Store does not
    grow, a second [removeIf] with the same predicate removes nothing more,
    and the Result Log and the predicate slot are not touched. *)
Theorem removeIf_keeps_exactly_the_rest t pred :
  (∀ k ti, m_testItems (removeIf pred t) !! k = Some ti ↔
           m_testItems t !! k = Some ti ∧ pred ti = false) ∧
  (size (m_testItems (removeIf pred t)) ≤ size (m_testItems t))%nat ∧
  removeIf pred (removeIf pred t) = removeIf pred t ∧
  m_results (removeIf pred t) = m_results t ∧
  m_testCallback (removeIf pred t) = m_testCallback t.
Proof.
  split_and!; [|apply map_subseteq_size, map_filter_subseteq| |done|done].
  - intros k ti. simpl. by rewrite map_lookup_filter_Some.
  - apply tester_eq; simpl; [|done|done].
    apply map_eq. intros k. apply option_eq. intros ti.
    rewrite !map_lookup_filter_Some. simpl.
    split; [by intros [[? ?] ?]|by intros [? ?]].
Qed.

(** X4: when every entry is filed under its own name (which holds for
    every Store built through the member functions), [removeIf] with the
    predicate "the item's name is [n]" does the same as [remove(n)]. *)
Theorem removeIf_by_name_is_remove t n :
  keys_match_names t →
  removeIf (λ testItem, String.eqb (name testItem) n) t = remove n t.
Proof.
  intros Hinv. apply tester_eq; simpl; [|done|done].
  apply map_eq. intros k. apply option_eq. intros ti.
  rewrite map_lookup_filter_Some, lookup_delete_Some. simpl.
  split.
  - intros [Hk Hne]. split; [|done]. intros <-.
    rewrite (Hinv _ _ Hk), String.eqb_refl in Hne. done.
  - intros [Hne Hk]. split; [done|]. rewrite (Hinv _ _ Hk).
    by apply String.eqb_neq.
Qed.

(** X5: [expect] on a name that is not a key of the Store changes
    nothing. *)
Theorem expect_absent_is_noop t n :
  m_testItems t !! n = None → expect n t = t.
Proof. intros Hn. apply tester_eq; simpl; [by apply alter_id'|done|done]. Qed.

Lemma set_expectedToFail_idemp (ti : TestItem T) :
  set_expectedToFail (set_expectedToFail ti) = set_expectedToFail ti.
Proof. done. Qed.

(** X6: [expectIf] only raises flags.  Each entry keeps its key, value,
    name and description, and is expected to fail afterwards exactly when
    it satisfied the predicate or was expected to fail before; the set of
    keys is unchanged, and an entry already expected to fail stays as it
    is. *)
Theorem expectIf_only_raises_flags t pred :
  (∀ k, m_testItems (expectIf pred t) !! k =
        (λ ti, mkTestItem (item ti) (name ti) (description ti)
                 (pred ti || expectedToFail ti)) <$> m_testItems t !! k) ∧
  dom (m_testItems (expectIf pred t)) = dom (m_testItems t) ∧
  (∀ k ti, m_testItems t !! k = Some ti → expectedToFail ti = true →
           m_testItems (expectIf pred t) !! k = Some ti).
Proof.
  assert (∀ ti : TestItem T,
            (if pred ti then set_expectedToFail ti else ti) =
            mkTestItem (item ti) (name ti) (description ti)
              (pred ti || expectedToFail ti)) as Hf.
  { intros [v n d f]. simpl. by destruct (pred _). }
  split_and!.
  - intros k. simpl. rewrite lookup_fmap. destruct (m_testItems t !! k); simpl; [|done].
    by rewrite Hf.
  - simpl. apply dom_fmap_L.
  - intros k [v n d f] Hk Hflag. simpl in *. rewrite lookup_fmap, Hk. simpl.
    rewrite Hf. simpl. subst f. by rewrite orb_true_r.
Qed.

(** X7: when every entry is filed under its own name, [expect(n)] does
    the same as [expectIf] with the predicate "the item's name is [n]". *)
Theorem expect_is_expectIf_by_name t n :
  keys_match_names t →
  expect n t = expectIf (λ testItem, String.eqb (name testItem) n) t.
Proof.
  intros Hinv. apply tester_eq; simpl; [|done|done].
  apply map_eq. intros k. rewrite lookup_fmap.
  destruct (decide (n = k)) as [->|Hne].
  - rewrite lookup_alter_eq. destruct (m_testItems t !! k) as [ti|] eqn:Hk; [|done].
    simpl. by rewrite (Hinv _ _ Hk), String.eqb_refl.
  - rewrite lookup_alter_ne by done.
    destruct (m_testItems t !! k) as [ti|] eqn:Hk; [|done].
    simpl. rewrite (Hinv _ _ Hk).
    assert (String.eqb k n = false) as -> by (apply String.eqb_neq; congruence). done.
Qed.
End store_extras.

Section store_extras2.
Context {T : Type}.
Implicit Types (t : RySimpleRangeTester T) (m : gmap string (TestItem T)).

(** X8: what [getTestItem] finds after a change of the Store.  After
    [add] under an explicit name it finds the entry that was there before,
    or else the new one; after [remove] or [clear] it finds nothing; after
    [expect] it finds the same entry with the flag set; and [remove] and
    [expect] on one name do not change what is found under another. *)
Theorem getTestItem_round_trips t n :
  (∀ value d, empty_string n = false →
     getTestItem n (add value n d t) =
     Some (default (mkTestItem value n d false) (getTestItem n t))) ∧
  (∀ testItem, empty_string (name testItem) = false → name testItem = n →
     getTestItem n (add_item testItem t) = Some (default testItem (getTestItem n t))) ∧
  getTestItem n (remove n t) = None ∧
  getTestItem n (expect n t) = set_expectedToFail <$> getTestItem n t ∧
  getTestItem n (clear t) = None ∧
  (∀ k, k ≠ n →
     getTestItem k (remove n t) = getTestItem k t ∧
     getTestItem k (expect n t) = getTestItem k t).
Proof.
  unfold getTestItem. split_and!.
  - intros value d Hne. simpl. rewrite Hne, try_emplace_lookup.
    destruct (m_testItems t !! n); [done|]. by rewrite decide_True.
  - intros testItem Hne <-. simpl. rewrite Hne, try_emplace_lookup.
    destruct (m_testItems t !! name testItem); [done|]. by rewrite decide_True.
  - simpl. apply lookup_delete_eq.
  - simpl. apply lookup_alter_eq.
  - simpl. apply lookup_empty.
  - intros k Hk. simpl. by rewrite lookup_delete_ne, lookup_alter_ne.
Qed.

Lemma add_generated_size t value d :
  size (m_testItems (add value "" d t)) = S (size (m_testItems t)).
Proof.
  simpl. unfold try_emplace. rewrite generateUniqueName_absent.
  apply map_size_insert_None, generateUniqueName_absent.
Qed.

Lemma add_named_generated_lookup t value baseName k :
  m_testItems (add value (generateUniqueName t baseName) "" t) !! k =
  if decide (generateUniqueName t baseName = k)
  then Some (mkTestItem value (generateUniqueName t baseName) "" false)
  else m_testItems t !! k.
Proof.
  simpl. rewrite generateUniqueName_nonempty, try_emplace_lookup.
  case_decide as Hk.
  - subst k. by rewrite generateUniqueName_absent.
  - by destruct (m_testItems t !! k).
Qed.

Lemma add_named_generated_size t value baseName :
  size (m_testItems (add value (generateUniqueName t baseName) "" t)) =
  S (size (m_testItems t)).
Proof.
  simpl. rewrite generateUniqueName_nonempty. unfold try_emplace.
  rewrite generateUniqueName_absent.
  apply map_size_insert_None, generateUniqueName_absent.
Qed.

Lemma add_values_snoc (items : list T) value namePrefix t :
  add_values (items ++ [value]) namePrefix t =
  add value (generateUniqueName (add_values items namePrefix t) namePrefix) ""
    (add_values items namePrefix t).
Proof. unfold add_values. by rewrite foldl_app. Qed.

(** X9: [add] of a container of values inserts every value, each under
    its own fresh name.  The Store grows by exactly the number of values
    and every earlier entry stays as it is.  The value at position [i] is
    filed under the name generated when the loop reaches it: that name has
    the form ["{prefix}_{j}"], was not a key before, and afterwards holds
    exactly that value with this name, an empty description and the flag
    unset.  The Store holds nothing besides the earlier entries and these
    new ones. *)
Theorem add_values_inserts_every_value (items : list T) namePrefix t :
  size (m_testItems (add_values items namePrefix t)) =
    (size (m_testItems t) + length items)%nat ∧
  (∀ k ti, m_testItems t !! k = Some ti →
           m_testItems (add_values items namePrefix t) !! k = Some ti) ∧
  (∀ (i : nat) value, items !! i = Some value →
     m_testItems t !! generated_key items namePrefix t i = None ∧
     m_testItems (add_values items namePrefix t) !! generated_key items namePrefix t i =
       Some (mkTestItem value (generated_key items namePrefix t i) "" false) ∧
     ∃ j : nat, generated_key items namePrefix t i = namePrefix +:+ "_" +:+ pretty j) ∧
  (∀ k ti, m_testItems (add_values items namePrefix t) !! k = Some ti →
           m_testItems t !! k = Some ti ∨
           ∃ (i : nat) value, items !! i = Some value ∧
             k = generated_key items namePrefix t i ∧
             ti = mkTestItem value k "" false).
Proof.
  induction items as [|value items IH] using rev_ind.
  - simpl. split_and!; [lia|done|by intros i value ?|by left].
  - destruct IH as (Hsize & Hold & Hnew & Honly). rewrite add_values_snoc.
    assert (∀ i, (i ≤ length items)%nat →
              generated_key (items ++ [value]) namePrefix t i =
              generated_key items namePrefix t i) as Hkey.
    { intros i Hi. unfold generated_key. by rewrite take_app_le. }
    assert (generated_key items namePrefix t (length items) =
            generateUniqueName (add_values items namePrefix t) namePrefix) as Hlast.
    { unfold generated_key. by rewrite firstn_all. }
    set (t' := add_values items namePrefix t) in *.
    assert (m_testItems t !! generateUniqueName t' namePrefix = None) as Hfresh.
    { destruct (m_testItems t !! generateUniqueName t' namePrefix) as [ti|] eqn:Hk; [|done].
      apply Hold in Hk. by rewrite generateUniqueName_absent in Hk. }
    split_and!.
    + rewrite add_named_generated_size, Hsize, length_app. simpl. lia.
    + intros k ti Hk. rewrite add_named_generated_lookup.
      case_decide as Hgen; [|by apply Hold].
      subst k. by rewrite Hfresh in Hk.
    + intros i v Hi. apply lookup_app_Some in Hi as [Hi|[Hlen Hi]].
      * pose proof (lookup_lt_Some _ _ _ Hi) as Hlt.
        rewrite Hkey by lia. destruct (Hnew i v Hi) as (Hnone & Hsome & Hform).
        split_and!; [done| |done].
        rewrite add_named_generated_lookup. case_decide as Hgen; [|done].
        rewrite <- Hgen, generateUniqueName_absent in Hsome. done.
      * destruct (i - length items)%nat as [|?] eqn:Hd; simpl in Hi; [|done].
        injection Hi as <-. assert (i = length items) as -> by lia.
        rewrite Hkey, Hlast by lia. split_and!; [done| |].
        -- by rewrite add_named_generated_lookup, decide_True.
        -- destruct (generateUniqueName_spec t' namePrefix) as (j & _ & Hj & _).
           exists j. by rewrite Hj.
    + intros k ti. rewrite add_named_generated_lookup. case_decide as Hgen.
      * intros [= <-]. right. exists (length items), value.
        rewrite Hkey, Hlast by lia. split_and!; [|done|by rewrite Hgen].
        by rewrite lookup_app_r, Nat.sub_diag.
      * intros Hk. destruct (Honly _ _ Hk) as [?|(i & v & Hi & -> & ->)]; [by left|].
        right. exists i, v. pose proof (lookup_lt_Some _ _ _ Hi) as Hlt.
        rewrite Hkey by lia. split_and!; [by apply lookup_app_l_Some|done|done].
Qed.

Lemma generateUniqueName_next t baseName :
  (∀ j, (1 ≤ j ≤ size (m_testItems t))%nat →
        is_Some (m_testItems t !! format_name baseName j)) →
  generateUniqueName t baseName = format_name baseName (S (size (m_testItems t))).
Proof.
  intros Hfull.
  destruct (generateUniqueName_spec t baseName) as (n & Hn & -> & _ & Hbetween).
  destruct (decide (n = S (size (m_testItems t)))) as [->|Hne]; [done|].
  exfalso.
  assert (S (size (m_testItems t)) ≤ size (m_testItems t))%nat; [|lia].
  apply (candidates_bounded (m_testItems t) baseName 1). intros j Hj.
  destruct (decide (j = S (size (m_testItems t)))) as [->|]; [|apply Hfull; lia].
  apply Hbetween. lia.
Qed.

(** X10: on an empty Store, [add] of a container of values numbers them
    from one: the value at position [i] (from 0) is filed under
    ["{prefix}_{i+1}"], and the Store holds nothing else. *)
Theorem add_values_numbers_from_one (items : list T) namePrefix t :
  m_testItems t = ∅ →
  size (m_testItems (add_values items namePrefix t)) = length items ∧
  ∀ (i : nat) value, items !! i = Some value →
    m_testItems (add_values items namePrefix t) !! (namePrefix +:+ "_" +:+ pretty (S i)) =
    Some (mkTestItem value (namePrefix +:+ "_" +:+ pretty (S i)) "" false).
Proof.
  intros Hempty. induction items as [|value items IH] using rev_ind.
  - simpl. rewrite Hempty, map_size_empty. split; [done|]. by intros i value ?.
  - destruct IH as (Hsize & Hnames). rewrite add_values_snoc.
    set (t' := add_values items namePrefix t) in *.
    assert (generateUniqueName t' namePrefix = format_name namePrefix (S (length items)))
      as Hgen.
    { rewrite <- Hsize. apply generateUniqueName_next. intros j Hj.
      destruct (lookup_lt_is_Some_2 items (j - 1)) as [v Hv]; [lia|].
      apply Hnames in Hv. replace (S (j - 1)) with j in Hv by lia. by eexists. }
    split.
    + rewrite add_named_generated_size, Hsize, length_app. simpl. lia.
    + intros i v Hi. rewrite add_named_generated_lookup, Hgen.
      fold (format_name namePrefix (S i)).
      apply lookup_app_Some in Hi as [Hi|[Hlen Hi]].
      * rewrite decide_False; [by apply Hnames|].
        intros Heq%(inj (format_name namePrefix)). apply lookup_lt_Some in Hi. lia.
      * destruct (i - length items)%nat as [|?] eqn:Hd; simpl in Hi; [|done].
        injection Hi as <-. assert (i = length items) as -> by lia.
        by rewrite decide_True.
Qed.
End store_extras2.

Section run_extras.
Context {T : Type}.
Implicit Types (t : RySimpleRangeTester T) (pf : Platform T) (cb : TestCallback T)
  (m : gmap string (TestItem T)) (items : list (string * TestItem T)).

Lemma try_callback_success cb (ti : TestItem T) e :
  try_callback cb ti = Returned (true, e) ↔
  cb (item ti) = Returns (negb (expectedToFail ti)) ∧ e = "".
Proof.
  unfold try_callback. split.
  - destruct (cb (item ti)) as [[|]|[what|]], (expectedToFail ti); simpl;
      intros [= <-]; done.
  - intros [-> ->]. by destruct (expectedToFail ti).
Qed.

Lemma try_callback_failure cb (ti : TestItem T) e :
  try_callback cb ti = Returned (false, e) ↔
  cb (item ti) = Returns (expectedToFail ti) ∧
    e = (if expectedToFail ti then "Test unexpectedly passed" else "Test failed") ∨
  cb (item ti) = Throws (StdException e).
Proof.
  unfold try_callback. split.
  - destruct (cb (item ti)) as [[|]|[what|]], (expectedToFail ti); simpl;
      intros [= <-]; auto.
  - intros [[-> ->]| ->]; [by destruct (expectedToFail ti)|done].
Qed.

Lemma entries_return pf cb m (results : list TestResult) n ti :
  Forall2 (matches_entry cb) (traverse pf m) results →
  m !! n = Some ti → cb (item ti) ≠ Throws OtherObject.
Proof.
  intros Hall Hn Hthrow.
  destruct (result_of_entry pf cb m results n ti Hall Hn) as (r & _ & _ & _ & _ & Htry & _).
  unfold try_callback in Htry. simpl in Htry. by rewrite Hthrow in Htry.
Qed.

(** X11: with a predicate set, [run()] returns [true] exactly when for
    every item of the Store the predicate returns the opposite of the
    item's [expectedToFail] flag (in particular without throwing). *)
Theorem run_true_iff_items_as_expected pf t cb :
  m_testCallback t = Some cb →
  (∀ n ti, m_testItems t !! n = Some ti →
           cb (item ti) = Returns (negb (expectedToFail ti))) ↔
  ∃ t', run pf t = (t', Returned true).
Proof.
  intros Hcb. split.
  - intros Hexp.
    destruct (run_completes pf t cb Hcb) as (t' & b & Hrun).
    { intros n ti Hn. by rewrite (Hexp n ti Hn). }
    exists t'. rewrite Hrun. do 2 f_equal.
    destruct (run_returned_value pf t t' b Hrun) as (_ & Hsucc & _).
    apply Hsucc, Forall_forall. intros r Hr.
    apply run_returned in Hrun as (cb' & Hcb' & _ & _ & Hall & _).
    rewrite Hcb in Hcb'. injection Hcb' as <-.
    destruct (entry_of_result pf cb _ _ r Hall Hr) as (ti & Hlk & _ & _ & _ & Htry & _).
    simpl in Htry. specialize (Hexp _ _ Hlk).
    unfold try_callback in Htry. rewrite Hexp in Htry.
    destruct (expectedToFail ti); simpl in Htry; by injection Htry as <- _.
  - intros [t' Hrun] n ti Hn.
    destruct (run_returned_value pf t t' true Hrun) as (_ & Hsucc & _).
    apply run_returned in Hrun as (cb' & Hcb' & _ & _ & Hall & _).
    rewrite Hcb in Hcb'. injection Hcb' as <-.
    destruct (result_of_entry pf cb _ _ n ti Hall Hn) as (r & Hr & _ & _ & _ & Htry & _).
    destruct Hsucc as [Hsucc _]. specialize (Hsucc eq_refl).
    rewrite Forall_forall in Hsucc. rewrite (Hsucc r Hr) in Htry. simpl in Htry.
    by apply try_callback_success in Htry as [? _].
Qed.


(** X13: every Result of a run that returns belongs to the Store entry of
    its name, from which it copies the flag and the description; its
    duration is not negative.  A successful Result has an empty error and
    the predicate returned the opposite of the flag.  A failed Result has
    one of three causes: the predicate returned [false] for an unflagged
    item (error ["Test failed"]), it returned [true] for a flagged item
    (error ["Test unexpectedly passed"]), or it threw a [std::exception]
    whose message is the error. *)
Theorem result_has_a_cause pf t cb t' b r :
  m_testCallback t = Some cb →
  run pf t = (t', Returned b) →
  r ∈ m_results t' →
  ∃ ti, m_testItems t !! res_name r = Some ti ∧
        wasExpectedToFail r = expectedToFail ti ∧
        res_description r = description ti ∧
        0 ≤ duration r ∧
        (if success r
         then cb (item ti) = Returns (negb (expectedToFail ti)) ∧ error r = ""
         else cb (item ti) = Returns (expectedToFail ti) ∧
                error r = (if expectedToFail ti then "Test unexpectedly passed"
                           else "Test failed") ∨
              cb (item ti) = Throws (StdException (error r))).
Proof.
  intros Hcb (cb' & Hcb' & _ & _ & Hall & _)%run_returned Hr.
  rewrite Hcb in Hcb'. injection Hcb' as <-.
  destruct (entry_of_result pf cb _ _ r Hall Hr) as (ti & Hlk & _ & Hf & Hd & Htry & Hdur).
  exists ti. simpl in *. split_and!; [done..|].
  destruct (success r); [by apply try_callback_success|by apply try_callback_failure].
Qed.
End run_extras.

Section run_extras2.
Context {T : Type}.
Implicit Types (t : RySimpleRangeTester T) (pf : Platform T) (cb : TestCallback T)
  (m : gmap string (TestItem T)) (items : list (string * TestItem T)).

Lemma runTests_loop_stops pf cb items tick results passedTests results' passedTests' tick' e :
  runTests_loop pf cb items tick results passedTests = (results', passedTests', tick', Some e) →
  e = OtherObject ∧
  ∃ pre entry post new,
    items = pre ++ entry :: post ∧
    cb (item entry.2) = Throws OtherObject ∧
    results' = results ++ new ∧
    Forall2 (matches_entry cb) pre new.
Proof.
  revert tick results passedTests.
  induction items as [|[n ti] rest IH]; intros tick results passedTests Hrun;
    simpl in Hrun; [done|].
  destruct (try_callback cb ti) as [[s er]|ex] eqn:Hcb.
  - apply IH in Hrun as (-> & pre & entry & post & new & -> & Hthrow & -> & Hall).
    split; [done|]. eexists ((n, ti) :: pre), entry, post, (_ :: new).
    split_and!; [done|done|by rewrite <- app_assoc|].
    constructor; [|done]. split_and!; simpl; try done.
    apply duration_cast_ms_nonneg.
    pose proof (steady_clock_mono pf tick (S tick)). lia.
  - injection Hrun as <- <- <- <-. unfold try_callback in Hcb.
    destruct (cb (item ti)) as [b|[what|]] eqn:Hinv; try done.
    injection Hcb as <-. split; [done|].
    exists [], (n, ti), rest, []. rewrite app_nil_r. by split_and!.
Qed.

(** X15: with a predicate set, an exception leaves [run()] exactly when
    the predicate throws, for some item of the Store, an object that is not
    a [std::exception]; that object is what leaves.  The Store and the
    predicate are unchanged and the Result Log is left holding the Results
    of the entries traversed before the first such item, so fewer Results
    than entries. *)
Theorem run_stops_at_foreign_exception pf t cb :
  m_testCallback t = Some cb →
  ((∃ n ti, m_testItems t !! n = Some ti ∧ cb (item ti) = Throws OtherObject) ↔
   ∃ t', run pf t = (t', Propagated OtherObject)) ∧
  (∀ t' e, run pf t = (t', Propagated e) →
     e = OtherObject ∧
     m_testItems t' = m_testItems t ∧ m_testCallback t' = m_testCallback t ∧
     ∃ pre entry post,
       traverse pf (m_testItems t) = pre ++ entry :: post ∧
       cb (item entry.2) = Throws OtherObject ∧
       Forall2 (matches_entry cb) pre (m_results t') ∧
       (length (m_results t') < size (m_testItems t))%nat).
Proof.
  intros Hcb.
  assert (∀ t' e, run pf t = (t', Propagated e) →
     e = OtherObject ∧
     m_testItems t' = m_testItems t ∧ m_testCallback t' = m_testCallback t ∧
     ∃ pre entry post,
       traverse pf (m_testItems t) = pre ++ entry :: post ∧
       cb (item entry.2) = Throws OtherObject ∧
       Forall2 (matches_entry cb) pre (m_results t') ∧
       (length (m_results t') < size (m_testItems t))%nat) as Hstop.
  { intros t' e. unfold run, runTests. rewrite Hcb.
    destruct (runTests_loop pf cb (traverse pf (m_testItems t)) 1 [] 0)
      as [[[results passedTests] tick] [e'|]] eqn:Hloop; [|done].
    intros [= <- <-]. simpl.
    apply runTests_loop_stops in Hloop
      as (-> & pre & entry & post & new & Htr & Hthrow & -> & Hall).
    split_and!; [done..|]. exists pre, entry, post. split_and!; [done..|].
    pose proof (Forall2_length _ _ _ Hall) as Hlen.
    apply (f_equal length) in Htr. rewrite length_app, (traverse_length pf) in Htr.
    simpl in *. lia. }
  split; [|done]. split.
  - intros (n & ti & Hn & Hthrow).
    destruct (run pf t) as [t' [b|e]] eqn:Hrun.
    + apply run_returned in Hrun as (cb' & Hcb' & _ & _ & Hall & _).
      rewrite Hcb in Hcb'. injection Hcb' as <-.
      by destruct (entries_return pf cb _ _ n ti Hall Hn).
    + destruct (Hstop t' e eq_refl) as (-> & _). by exists t'.
  - intros [t' Hrun].
    destruct (Hstop t' _ Hrun) as (_ & _ & _ & pre & [n ti] & post & Htr & Hthrow & _).
    exists n, ti. split; [|done]. apply (traverse_elem pf). rewrite Htr, elem_of_app, elem_of_cons. auto.
Qed.

(** X16: [getPassedCount() + getFailedCount()] is the length of the
    Result Log; the pass rate lies between 0 and 100; and with a non-empty
    Result Log it is 100 exactly when no Result failed. *)
Theorem counts_add_up t :
  (getPassedCount t + getFailedCount t)%nat = length (m_results t) ∧
  (0 <= getPassRate t)%Q ∧ (getPassRate t <= 100)%Q ∧
  (m_results t ≠ [] → (getPassRate t == 100)%Q ↔ getFailedCount t = 0%nat).
Proof.
  pose proof (getPassedCount_le t) as Hle.
  split; [unfold getFailedCount; lia|].
  unfold getPassRate, getFailedCount.
  destruct (m_results t) as [|r rs] eqn:Hres; [by split_and!|].
  set (p := getPassedCount t) in *. set (l := length (r :: rs)) in *.
  assert (0 < l)%nat as Hl by (unfold l; simpl; lia).
  assert (0 < inject_Z (Z.of_nat l))%Q as Hlq.
  { change 0%Q with (inject_Z 0). rewrite <- Zlt_Qlt. lia. }
  assert (0 <= inject_Z (Z.of_nat p))%Q as Hpq.
  { change 0%Q with (inject_Z 0). rewrite <- Zle_Qle. lia. }
  assert (inject_Z (Z.of_nat p) <= inject_Z (Z.of_nat l))%Q as Hplq.
  { rewrite <- Zle_Qle. lia. }
  split_and!.
  - apply Qmult_le_0_compat; [|done].
    apply Qle_shift_div_l; [done|]. by rewrite Qmult_0_l.
  - assert (inject_Z (Z.of_nat p) / inject_Z (Z.of_nat l) <= 1)%Q as H1.
    { apply Qle_shift_div_r; [done|]. by rewrite Qmult_1_l. }
    apply (Qmult_le_compat_r _ _ 100) in H1; [|done]. by rewrite Qmult_1_l in H1.
  - intros _. split.
    + intros Heq.
      assert (inject_Z (Z.of_nat p) == inject_Z (Z.of_nat l))%Q as Hpl.
      { assert (inject_Z (Z.of_nat p) / inject_Z (Z.of_nat l) == 1)%Q as H1.
        { apply (Qmult_inj_r _ _ 100); [done|]. by rewrite Heq, Qmult_1_l. }
        rewrite <- (Qmult_div_r (inject_Z (Z.of_nat p)) (inject_Z (Z.of_nat l))), H1.
        - by rewrite Qmult_1_r.
        - intros Hz. rewrite Hz in Hlq. by apply Qlt_irrefl in Hlq. }
      assert (Z.of_nat p = Z.of_nat l) by (by apply inject_Z_injective). lia.
    + intros Hzero. assert (p = l) as -> by lia.
      unfold Qdiv. rewrite Qmult_inv_r; [done|].
      intros Hz. rewrite Hz in Hlq. by apply Qlt_irrefl in Hlq.
Qed.
End run_extras2.

Section report_extras.
Context {T : Type}.
Implicit Types (t : RySimpleRangeTester T) (pf : Platform T) (cb : TestCallback T)
  (items : list (string * TestItem T)).

Lemma accumulate_durations_snoc (results : list TestResult) r :
  accumulate_durations (results ++ [r]) = accumulate_durations results + duration r.
Proof. unfold accumulate_durations. by rewrite foldl_app. Qed.

Lemma runTests_loop_time pf cb items tick results passedTests results' passedTests' tick' exn :
  runTests_loop pf cb items tick results passedTests = (results', passedTests', tick', exn) →
  1000000 * accumulate_durations results ≤ steady_clock_now pf tick - steady_clock_now pf 0 →
  1000000 * accumulate_durations results' ≤
    steady_clock_now pf tick' - steady_clock_now pf 0.
Proof.
  revert tick results passedTests.
  induction items as [|[n ti] rest IH]; intros tick results passedTests Hrun Hinv;
    simpl in Hrun.
  - by injection Hrun as <- <- <- <-.
  - pose proof (steady_clock_mono pf tick (S tick)) as H1.
    pose proof (steady_clock_mono pf (S tick) (S (S tick))) as H2.
    destruct (try_callback cb ti) as [[s er]|ex].
    + apply IH in Hrun; [done|]. rewrite accumulate_durations_snoc. simpl.
      pose proof (Z.mul_quot_le (steady_clock_now pf (S tick) - steady_clock_now pf tick)
                    1000000) as Hq.
      unfold duration_cast_ms. lia.
    + injection Hrun as <- <- <- <-. lia.
Qed.

Lemma runTests_returned pf t t' report :
  runTests pf t = (t', Returned report) →
  ∃ cb totalTime_,
    m_testCallback t = Some cb ∧
    m_testItems t' = m_testItems t ∧
    Forall2 (matches_entry cb) (traverse pf (m_testItems t)) (m_results t') ∧
    report = printTestReport t' (getPassedCount t') totalTime_
               (accumulate_durations (m_results t')) ∧
    accumulate_durations (m_results t') ≤ totalTime_.
Proof.
  unfold runTests. destruct (m_testCallback t) as [cb|] eqn:Hcb; [|done].
  destruct (runTests_loop pf cb (traverse pf (m_testItems t)) 1 [] 0)
    as [[[results passedTests] tick] [e|]] eqn:Hloop; [done|].
  intros [= <- <-]. simpl.
  pose proof (runTests_loop_time _ _ _ _ _ _ _ _ _ _ Hloop) as Htime.
  apply runTests_loop_returned in Hloop as (new & -> & -> & Hall).
  eexists cb, _. split_and!; [done|done|done|done|].
  apply Z.quot_le_lower_bound; [done|]. apply Htime.
  pose proof (steady_clock_mono pf 0 1). unfold accumulate_durations. simpl. lia.
Qed.

(** X17: the counts printed by the report agree with the accessors.  For
    a Store whose size fits [size_t], after a run that returns: the total
    is the Store size and equals passed plus failed; the passed block is
    printed exactly when [getPassedCount()] is positive, with that count
    and the successful Results in log order; the failed block is printed
    exactly when [getFailedCount()] is positive, with that count and the
    failed Results in log order. *)
Theorem report_counts_agree pf t t' report :
  Z.of_nat (size (m_testItems t)) < 2 ^ 64 →
  runTests pf t = (t', Returned report) →
  totalTests report = size (m_testItems t) ∧
  totalTests report = (getPassedCount t' + getFailedCount t')%nat ∧
  passedBlock report =
    (if (0 <? getPassedCount t')%nat
     then Some (getPassedCount t', List.filter success (m_results t')) else None) ∧
  failedBlock report =
    (if (0 <? getFailedCount t')%nat
     then Some (Z.of_nat (getFailedCount t'),
                List.filter (λ r, negb (success r)) (m_results t'))
     else None).
Proof.
  intros Hsize (cb & totalTime_ & _ & Hitems & Hall & -> & _)%runTests_returned.
  assert (length (m_results t') = size (m_testItems t)) as Hlen.
  { rewrite <- (Forall2_length _ _ _ Hall). apply traverse_length. }
  pose proof (getPassedCount_le t') as Hle.
  unfold printTestReport. simpl. rewrite Hitems. split_and!; [done| |done|].
  - unfold getFailedCount. lia.
  - unfold getFailedCount. rewrite Hlen.
    assert (to_size_t (Z.of_nat (size (m_testItems t)) - Z.of_nat (getPassedCount t')) =
            Z.of_nat (size (m_testItems t) - getPassedCount t')) as ->.
    { unfold to_size_t. rewrite Z.mod_small; lia. }
    destruct (size (m_testItems t) - getPassedCount t')%nat eqn:Hd; simpl; [done|].
    done.
Qed.

(** X18: in the report of a run that returns, the total test time is the
    sum of the durations in the Result Log, it lies between 0 and the total
    (wall) time, and the overhead, their difference, is not negative. *)
Theorem report_times_are_ordered pf t t' report :
  runTests pf t = (t', Returned report) →
  totalTestTime report = accumulate_durations (m_results t') ∧
  0 ≤ totalTestTime report ≤ totalTime report ∧
  overheadTime report = totalTime report - totalTestTime report ∧
  0 ≤ overheadTime report.
Proof.
  intros (cb & totalTime_ & _ & _ & Hall & -> & Hle)%runTests_returned.
  unfold printTestReport. simpl.
  assert (0 ≤ accumulate_durations (m_results t')).
  { apply accumulate_durations_nonneg. eapply Forall2_Forall_r; [done|].
    apply Forall_forall. by intros entry _ r (_ & _ & _ & _ & ?). }
  split_and!; [done|lia|lia|done|lia].
Qed.

(** X19: in the report of a run that returns, the performance block is
    missing exactly when the Store is empty; when it is printed, its
    average equals the average per test of the summary, and the slowest,
    the fastest and every listed slow Result are Results of the log. *)
Theorem performance_block_matches_summary pf t t' report :
  runTests pf t = (t', Returned report) →
  (performance report = None ↔ m_testItems t = ∅) ∧
  ∀ pa, performance report = Some pa →
        avgTime pa = averageTimePerTest report ∧
        slowest pa ∈ m_results t' ∧ fastest pa ∈ m_results t' ∧
        Forall (λ r, r ∈ m_results t') (slowTests pa).
Proof.
  intros (cb & totalTime_ & _ & Hitems & Hall & -> & _)%runTests_returned.
  assert (length (m_results t') = size (m_testItems t)) as Hlen.
  { rewrite <- (Forall2_length _ _ _ Hall). apply traverse_length. }
  unfold printTestReport. cbn [performance averageTimePerTest]. rewrite Hitems.
  destruct (m_results t') as [|r0 rs] eqn:Hres.
  - simpl in Hlen. split; [|done]. split; [|done]. intros _.
    by apply map_size_empty_iff.
  - destruct (minmax_element_spec r0 rs) as (a & ra & b & rb & Hmm & (Ha & _) & (Hb & _)).
    unfold performanceAnalysis. rewrite Hmm. split.
    + split; [done|]. intros Hempty. rewrite Hempty, map_size_empty in Hlen. done.
    + intros pa Hpa. apply (inj Some) in Hpa. subst pa.
      cbn [avgTime slowest fastest slowTests].
      rewrite (nth_lookup_Some _ _ _ _ Ha), (nth_lookup_Some _ _ _ _ Hb).
      split_and!.
      * rewrite <- Hlen.
        destruct (0 <? length (r0 :: rs))%nat eqn:Hpos; [done|].
        apply Nat.ltb_ge in Hpos. simpl in Hpos. lia.
      * by eapply list_elem_of_lookup_2.
      * by eapply list_elem_of_lookup_2.
      * apply Forall_forall. intros r Hr. apply list_elem_of_In in Hr.
        apply List.filter_In in Hr as [Hr _]. by apply list_elem_of_In.
Qed.
End report_extras.

Section slow_tests.
Implicit Types (results : list TestResult).

Lemma accumulate_durations_lower results c :
  (∀ r, r ∈ results → c ≤ duration r) →
  Z.of_nat (length results) * c ≤ accumulate_durations results.
Proof.
  induction results as [|r rs IH]; intros Hlow.
  - unfold accumulate_durations. simpl. lia.
  - rewrite accumulate_durations_cons. simpl length.
    assert (c ≤ duration r) by (apply Hlow; by left).
    assert (Z.of_nat (length rs) * c ≤ accumulate_durations rs).
    { apply IH. intros r' Hr'. apply Hlow. by right. }
    lia.
Qed.

(** X20: for a Result Log with non-negative durations adding up to less
    than [2^51] ms, the fastest Result is never listed among the slow ones
    and every listed Result is strictly slower than it; if any Result is
    listed then the slowest one is; and if all durations are equal none
    is. *)
Theorem slow_tests_lie_above_the_fastest results pa :
  Forall (λ r, 0 ≤ duration r) results →
  accumulate_durations results < 2 ^ 51 →
  performanceAnalysis results (accumulate_durations results) = Some pa →
  (fastest pa ∉ slowTests pa) ∧
  (slowTests pa ≠ [] → slowest pa ∈ slowTests pa) ∧
  (∀ r, r ∈ slowTests pa → duration (fastest pa) < duration r) ∧
  ((∀ r r', r ∈ results → r' ∈ results → duration r = duration r') → slowTests pa = []).
Proof.
  intros Hdur Hsum. destruct results as [|r0 rs]; [done|].
  pose proof (accumulate_durations_nonneg _ Hdur) as Hnonneg.
  unfold performanceAnalysis.
  destruct (minmax_element_spec r0 rs) as (a & ra & b & rb & -> & Hmin & Hmax).
  set (results := r0 :: rs) in *.
  assert (to_size_t (accumulate_durations results) = accumulate_durations results) as ->.
  { unfold to_size_t. apply Z.mod_small. lia. }
  set (avg := accumulate_durations results / Z.of_nat (length results)).
  intros Hpa. apply (inj Some) in Hpa. subst pa. cbn [fastest slowest slowTests].
  pose proof Hmin as (Ha & Hleast & _). pose proof Hmax as (Hb & Hmost & _).
  rewrite (nth_lookup_Some _ _ _ _ Ha), (nth_lookup_Some _ _ _ _ Hb).
  assert (0 < Z.of_nat (length results)) as Hlen by (simpl; lia).
  assert (duration ra ≤ avg) as Hra.
  { apply Z.div_le_lower_bound; [done|]. apply accumulate_durations_lower.
    intros r [i Hi]%list_elem_of_lookup. by eapply Hleast. }
  assert (0 ≤ duration ra) as Hra0.
  { rewrite Forall_forall in Hdur. apply Hdur. by eapply list_elem_of_lookup_2. }
  assert (∀ r, r ∈ List.filter (λ result, slow_threshold avg <? duration result) results ↔
               r ∈ results ∧ 3 * avg < 2 * duration r) as Hmem.
  { intros r. by rewrite !list_elem_of_In, List.filter_In, Z.ltb_lt, slow_threshold_lt. }
  split_and!.
  - rewrite Hmem. intros [_ ?]. lia.
  - intros Hne.
    destruct (List.filter _ results) as [|r rs'] eqn:Hf; [done|].
    assert (r ∈ r :: rs') as [[i Hi]%list_elem_of_lookup Hr]%Hmem by by left.
    apply Hmem. split; [by eapply list_elem_of_lookup_2|].
    specialize (Hmost _ _ Hi). lia.
  - intros r [_ Hr]%Hmem. lia.
  - intros Hequal.
    destruct (List.filter _ results) as [|r rs'] eqn:Hf; [done|]. exfalso.
    assert (r ∈ r :: rs') as [Hin Hr]%Hmem by by left.
    rewrite (Hequal r ra Hin) in Hr; [lia|]. by eapply list_elem_of_lookup_2.
Qed.
End slow_tests.

(** ** A fault that is not a [std::exception] *)

Section foreign_fault.
Context {T : Type}.
Implicit Types (t : RySimpleRangeTester T) (pf : Platform T) (cb : TestCallback T).

Lemma run_propagated pf t cb t' e :
  m_testCallback t = Some cb →
  run pf t = (t', Propagated e) →
  e = OtherObject ∧
  ∃ pre entry post,
    traverse pf (m_testItems t) = pre ++ entry :: post ∧
    cb (item entry.2) = Throws OtherObject ∧
    Forall2 (matches_entry cb) pre (m_results t').
Proof.
  intros Hcb. unfold run, runTests. rewrite Hcb.
  destruct (runTests_loop pf cb (traverse pf (m_testItems t)) 1 [] 0)
    as [[[results passedTests] tick] [e'|]] eqn:Hloop; [|done].
  intros [= <- <-]. simpl.
  apply runTests_loop_stops in Hloop
    as (-> & pre & entry & post & new & Htr & Hthrow & -> & Hall).
  split; [done|]. by exists pre, entry, post.
Qed.
End foreign_fault.

(** C3: the claim fails on the code for a fault that is not a
    [std::exception].  On the tester [foreign_tester], whose predicate
    throws such an object for the item ["c"], [run()] does not return under
    any traversal order and clock: the object leaves [run()], the item
    ["c"] gets no Result, and the Result Log holds fewer Results than the
    Store has items, so the items after ["c"] are not executed. *)
Theorem foreign_fault_aborts_run (pf : Platform Z) :
  ∃ t', run pf foreign_tester = (t', Propagated OtherObject) ∧
        (∀ r, r ∈ m_results t' → res_name r ≠ "c") ∧
        (length (m_results t') < size (m_testItems foreign_tester))%nat.
Proof.
  set (cb := λ x : Z, if x =? 0 then Throws OtherObject else Returns true).
  assert (m_testCallback foreign_tester = Some cb) as Hcb by reflexivity.
  assert (m_testItems foreign_tester !! "c" = Some (mkTestItem 0 "c" "" false)) as Hc
    by reflexivity.
  destruct (run pf foreign_tester) as [t' [b|e]] eqn:Hrun.
  - apply run_returned in Hrun as (cb' & Hcb' & _ & _ & Hall & _).
    rewrite Hcb in Hcb'. injection Hcb' as <-.
    by destruct (entries_return pf cb _ _ "c" _ Hall Hc).
  - destruct (run_propagated pf foreign_tester cb t' e Hcb Hrun)
      as (-> & pre & entry & post & Htr & Hthrow & Hall).
    exists t'. split; [done|]. split.
    + intros r [i Hi]%list_elem_of_lookup Hname.
      destruct (Forall2_lookup_r _ _ _ _ _ Hall Hi) as ([n ti] & Hpre & Hn & _ & _ & Htry & _).
      simpl in Hn, Htry. rewrite Hname in Hn. subst n.
      assert (("c", ti) ∈ traverse pf (m_testItems foreign_tester)) as Hin.
      { rewrite Htr. apply elem_of_app. left. by eapply list_elem_of_lookup_2. }
      apply traverse_elem in Hin. rewrite Hc in Hin. injection Hin as <-.
      unfold try_callback in Htry. simpl in Htry. discriminate Htry.
    + pose proof (Forall2_length _ _ _ Hall) as Hlen.
      apply (f_equal length) in Htr.
      rewrite length_app, (traverse_length pf) in Htr. cbn [length] in Htr. lia.
Qed.

(** With the entries visited in the order of [example_platform], ["c"] comes
    first and the run ends with an empty Result Log: no item gets a
    Result. *)
Example foreign_fault_leaves_empty_log :
  run example_platform foreign_tester =
  (mkTester (m_testItems foreign_tester) (m_testCallback foreign_tester) [],
   Propagated OtherObject).
Proof. vm_compute. reflexivity. Qed.

(** ** The further properties at concrete inputs *)

Lemma remove_absent_is_noop_witness :
  m_testItems sign_tester !! "c" = None ∧ remove "c" sign_tester = sign_tester.
Proof. split; [reflexivity|]. apply remove_absent_is_noop. reflexivity. Defined.

Lemma remove_undoes_add_witness :
  m_testItems sign_tester !! "c" = None ∧
  remove "c" (add 0 "c" "raises" sign_tester) = sign_tester.
Proof.
  split; [reflexivity|].
  exact (remove_undoes_add sign_tester 0 "c" "raises" eq_refl).
Defined.

Lemma removeIf_by_name_is_remove_witness :
  keys_match_names sign_tester ∧
  removeIf (λ testItem, String.eqb (name testItem) "a") sign_tester = remove "a" sign_tester.
Proof.
  assert (keys_match_names sign_tester) as Hinv.
  { apply (apply_operations_keys [OpAdd 1 "a" ""; OpAdd (-1) "b" ""] new_tester).
    intros k ti H. simpl in H. rewrite lookup_empty in H. discriminate H. }
  split; [exact Hinv|]. exact (removeIf_by_name_is_remove sign_tester "a" Hinv).
Defined.

Lemma expect_absent_is_noop_witness :
  m_testItems sign_tester !! "c" = None ∧ expect "c" sign_tester = sign_tester.
Proof. split; [reflexivity|]. apply expect_absent_is_noop. reflexivity. Defined.

Lemma expect_is_expectIf_by_name_witness :
  expect "b" sign_tester =
  expectIf (λ testItem, String.eqb (name testItem) "b") sign_tester.
Proof.
  apply expect_is_expectIf_by_name.
  apply (apply_operations_keys [OpAdd 1 "a" ""; OpAdd (-1) "b" ""] new_tester).
  intros k ti H. simpl in H. rewrite lookup_empty in H. discriminate H.
Defined.

Lemma add_values_inserts_every_value_witness :
  generated_key [30; 40] "num" sign_tester 1 = "num_4" ∧
  m_testItems (add_values [30; 40] "num" sign_tester) !! "num_4" =
  Some (mkTestItem 40 "num_4" "" false).
Proof.
  assert (generated_key [30; 40] "num" sign_tester 1 = "num_4") as Hkey by reflexivity.
  split; [exact Hkey|].
  destruct (add_values_inserts_every_value [30; 40] "num" sign_tester) as (_ & _ & Hnew & _).
  destruct (Hnew 1%nat 40 eq_refl) as (_ & Hsome & _).
  rewrite Hkey in Hsome. exact Hsome.
Defined.

Lemma add_values_numbers_from_one_witness :
  m_testItems (clear scenario_tester) = ∅ ∧
  m_testItems (add_values [30; 40] "num" (clear scenario_tester)) !! "num_2" =
  Some (mkTestItem 40 "num_2" "" false).
Proof.
  split; [reflexivity|].
  destruct (add_values_numbers_from_one [30; 40] "num" (clear scenario_tester) eq_refl)
    as [_ Hnames].
  exact (Hnames 1%nat 40 eq_refl).
Defined.

Lemma run_true_iff_items_as_expected_witness :
  m_testCallback (forEach positive (expect "b" sign_tester)) = Some positive ∧
  (∃ t', run example_platform (forEach positive (expect "b" sign_tester)) =
         (t', Returned true)) ∧
  positive (-1) = Returns (negb true).
Proof.
  assert (∃ t', run example_platform (forEach positive (expect "b" sign_tester)) =
                (t', Returned true)) as Hrun.
  { eexists. vm_compute. reflexivity. }
  split; [reflexivity|]. split; [exact Hrun|].
  pose proof (proj2 (run_true_iff_items_as_expected example_platform
                       (forEach positive (expect "b" sign_tester)) positive eq_refl) Hrun)
    as Hall.
  exact (Hall "b" (mkTestItem (-1) "b" "" true) eq_refl).
Defined.


Lemma result_has_a_cause_witness :
  ∃ r ti, r ∈ m_results (run example_platform scenario_tester).1 ∧
          m_testItems scenario_tester !! res_name r = Some ti ∧
          wasExpectedToFail r = expectedToFail ti.
Proof.
  assert (run example_platform scenario_tester =
          ((run example_platform scenario_tester).1, Returned false)) as Hrun
    by (vm_compute; reflexivity).
  set (r := mkTestResult "c" false "zero has no sign" 5 false "raises").
  assert (r ∈ m_results (run example_platform scenario_tester).1) as Hr
    by (vm_compute; left).
  destruct (result_has_a_cause example_platform scenario_tester scenario_predicate
              _ false r eq_refl Hrun Hr) as (ti & Hlk & Hflag & _).
  exists r, ti. split; [exact Hr|]. split; [exact Hlk|exact Hflag].
Defined.

Lemma run_stops_at_foreign_exception_witness :
  m_testCallback foreign_tester =
    Some (λ x, if x =? 0 then Throws OtherObject else Returns true) ∧
  ∃ t', run example_platform foreign_tester = (t', Propagated OtherObject).
Proof.
  split; [reflexivity|].
  apply (run_stops_at_foreign_exception example_platform foreign_tester _ eq_refl).
  exists "c", (mkTestItem 0 "c" "" false). split; reflexivity.
Defined.

Lemma report_counts_agree_witness :
  Z.of_nat (size (m_testItems scenario_tester)) < 2 ^ 64 ∧
  ∃ t' report,
    runTests example_platform scenario_tester = (t', Returned report) ∧
    totalTests report = (getPassedCount t' + getFailedCount t')%nat.
Proof.
  assert (Z.of_nat (size (m_testItems scenario_tester)) < 2 ^ 64) as Hsize
    by (vm_compute; reflexivity).
  split; [exact Hsize|].
  destruct (runTests example_platform scenario_tester) as [t' [report|e]] eqn:Hrun;
    [|vm_compute in Hrun; discriminate Hrun].
  exists t', report. split; [reflexivity|].
  destruct (report_counts_agree example_platform scenario_tester t' report Hsize Hrun)
    as (_ & Htotal & _).
  exact Htotal.
Defined.

Lemma report_times_are_ordered_witness :
  ∃ t' report,
    runTests example_platform scenario_tester = (t', Returned report) ∧
    0 ≤ overheadTime report.
Proof.
  destruct (runTests example_platform scenario_tester) as [t' [report|e]] eqn:Hrun;
    [|vm_compute in Hrun; discriminate Hrun].
  exists t', report. split; [reflexivity|].
  destruct (report_times_are_ordered example_platform scenario_tester t' report Hrun)
    as (_ & _ & _ & Hover).
  exact Hover.
Defined.

Lemma performance_block_matches_summary_witness :
  ∃ t' report,
    runTests example_platform scenario_tester = (t', Returned report) ∧
    (performance report = None ↔ m_testItems scenario_tester = ∅).
Proof.
  destruct (runTests example_platform scenario_tester) as [t' [report|e]] eqn:Hrun;
    [|vm_compute in Hrun; discriminate Hrun].
  exists t', report. split; [reflexivity|].
  exact (proj1 (performance_block_matches_summary example_platform scenario_tester
                  t' report Hrun)).
Defined.

Lemma slow_tests_lie_above_the_fastest_witness :
  Forall (λ r, 0 ≤ duration r) slow_log ∧
  accumulate_durations slow_log < 2 ^ 51 ∧
  ∃ pa, performanceAnalysis slow_log (accumulate_durations slow_log) = Some pa ∧
        slowest pa ∈ slowTests pa.
Proof.
  assert (Forall (λ r, 0 ≤ duration r) slow_log) as Hdur.
  { repeat constructor; simpl; lia. }
  assert (accumulate_durations slow_log < 2 ^ 51) as Hsum by reflexivity.
  split; [exact Hdur|]. split; [exact Hsum|].
  destruct (performanceAnalysis slow_log (accumulate_durations slow_log)) as [pa|] eqn:Hpa;
    [|vm_compute in Hpa; discriminate Hpa].
  exists pa. split; [reflexivity|].
  destruct (slow_tests_lie_above_the_fastest slow_log pa Hdur Hsum Hpa) as (_ & Hslow & _).
  apply Hslow. vm_compute in Hpa. injection Hpa as <-. discriminate.
Defined.

(** * Properties of the RyTest registry *)

Module RyTestFacts.
Import RyTest.

Section registry.
Context (env : Environment) (filter : TestFilter).
Implicit Types (tests : list TestCase) (test : TestCase) (stats : TestStatistics).

Lemma count_total_spec tests n :
  count_total env filter tests n = (n + length (List.filter (selected env filter) tests))%nat.
Proof.
  revert n. induction tests as [|test rest IH]; intros n; simpl; [lia|].
  rewrite IH. unfold selected. destruct (negb _ && _); simpl; lia.
Qed.

Lemma outcome_unfold test :
  passes env filter test =
    negb (is_disabled test) && shouldRun env filter (fullName test) && (try_test test).1 ∧
  fails env filter test =
    negb (is_disabled test) && shouldRun env filter (fullName test) && negb (try_test test).1 ∧
  reported_skipped env filter test =
    is_skip test && negb (shouldRun env filter (fullName test)).
Proof. done. Qed.

Lemma run_loop_spec tests tick stats events :
  ∃ events' tick',
    run_loop env filter tests tick stats events =
      (mkTestStatistics (total stats)
         (passed stats + length (List.filter (passes env filter) tests))
         (failed stats + length (List.filter (fails env filter) tests))
         (skipped stats + length (List.filter (reported_skipped env filter) tests))
         (totalTime stats),
       events ++ events', tick') ∧
    length events' =
      (length (List.filter (passes env filter) tests) +
       length (List.filter (fails env filter) tests) +
       length (List.filter (reported_skipped env filter) tests))%nat ∧
    tick' =
      (tick + 2 * (length (List.filter (passes env filter) tests) +
                   length (List.filter (fails env filter) tests)))%nat.
Proof.
  revert tick stats events.
  induction tests as [|test rest IH]; intros tick stats events.
  - exists [], tick. simpl. rewrite app_nil_r, !Nat.add_0_r. by destruct stats.
  - cbn [run_loop List.filter].
    destruct (outcome_unfold test) as (-> & -> & ->).
    destruct (is_disabled test) eqn:Hdis, (is_skip test) eqn:Hsk,
             (shouldRun env filter (fullName test)) eqn:Hrun;
      try (unfold is_disabled, is_skip in Hdis, Hsk; destruct (status test); done);
      cbn [negb orb andb].
    + destruct (IH tick stats events) as (events' & tick' & -> & Hlen & Htick).
      exists events', tick'. by split_and!.
    + destruct (IH tick stats events) as (events' & tick' & -> & Hlen & Htick).
      exists events', tick'. by split_and!.
    + destruct (try_test test) as [[|] msg]; cbn [fst negb].
      * destruct (IH (S (S tick))
                    (mkTestStatistics (total stats) (S (passed stats)) (failed stats)
                       (skipped stats) (totalTime stats))
                    (events ++ [Ok (fullName test)
                                  (duration_cast_ms (clock_now env (S tick) - clock_now env tick))]))
          as (events' & tick' & -> & Hlen & Htick).
        eexists (_ :: events'), tick'. rewrite <- app_assoc. cbn [total passed failed skipped totalTime length].
        split_and!; [do 2 f_equal; f_equal; lia|lia|lia].
      * destruct (IH (S (S tick))
                    (mkTestStatistics (total stats) (passed stats) (S (failed stats))
                       (skipped stats) (totalTime stats))
                    (events ++ [Failed (fullName test) msg]))
          as (events' & tick' & -> & Hlen & Htick).
        eexists (_ :: events'), tick'. rewrite <- app_assoc. cbn [total passed failed skipped totalTime length].
        split_and!; [do 2 f_equal; f_equal; lia|lia|lia].
    + destruct (IH tick
                  (mkTestStatistics (total stats) (passed stats) (failed stats)
                     (S (skipped stats)) (totalTime stats))
                  (events ++ [Skipped (fullName test) (skipReason test)]))
        as (events' & tick' & -> & Hlen & Htick).
      eexists (_ :: events'), tick'. rewrite <- app_assoc. cbn [total passed failed skipped totalTime length].
      split_and!; [do 2 f_equal; f_equal; lia|lia|lia].
    + destruct (try_test test) as [[|] msg]; cbn [fst negb].
      * destruct (IH (S (S tick))
                    (mkTestStatistics (total stats) (S (passed stats)) (failed stats)
                       (skipped stats) (totalTime stats))
                    (events ++ [Ok (fullName test)
                                  (duration_cast_ms (clock_now env (S tick) - clock_now env tick))]))
          as (events' & tick' & -> & Hlen & Htick).
        eexists (_ :: events'), tick'. rewrite <- app_assoc. cbn [total passed failed skipped totalTime length].
        split_and!; [do 2 f_equal; f_equal; lia|lia|lia].
      * destruct (IH (S (S tick))
                    (mkTestStatistics (total stats) (passed stats) (S (failed stats))
                       (skipped stats) (totalTime stats))
                    (events ++ [Failed (fullName test) msg]))
          as (events' & tick' & -> & Hlen & Htick).
        eexists (_ :: events'), tick'. rewrite <- app_assoc. cbn [total passed failed skipped totalTime length].
        split_and!; [do 2 f_equal; f_equal; lia|lia|lia].
    + destruct (IH tick stats events) as (events' & tick' & -> & Hlen & Htick).
      exists events', tick'. by split_and!.
Qed.



Lemma try_test_success test :
  (try_test test).1 = true ↔
  (validateFunc test = None ∨ validateFunc test = Some (Gives true)) ∧
  ∃ u, testFunc test = Gives u.
Proof.
  unfold try_test. split.
  - destruct (validateFunc test) as [[[|]|[what|]]|], (testFunc test) as [u|[what'|]];
      simpl; intros [= ]; eauto.
  - intros [[-> | ->] [u ->]]; done.
Qed.

Lemma filter_length_zero {A} (p : A → bool) (l : list A) :
  length (List.filter p l) = 0%nat ↔ ∀ x, x ∈ l → p x = false.
Proof.
  induction l as [|x l IH]; simpl.
  - split; [by intros _ x ?%elem_of_nil|done].
  - destruct (p x) eqn:Hx; simpl.
    + split; [done|]. intros Hall. specialize (Hall x). rewrite Hx in Hall.
      by discriminate Hall; left.
    + rewrite IH. split.
      * intros Hall y [->|Hy]%elem_of_cons; [done|by apply Hall].
      * intros Hall y Hy. apply Hall. by right.
Qed.

Lemma run_loop_drop_disabled tests tick stats events :
  run_loop env filter tests tick stats events =
  run_loop env filter (List.filter (λ test, negb (is_disabled test)) tests) tick stats events.
Proof.
  revert tick stats events.
  induction tests as [|test rest IH]; intros tick stats events; [done|].
  cbn [List.filter]. destruct (is_disabled test) eqn:Hdis; cbn [negb].
  - cbn [run_loop]. rewrite Hdis. cbn [orb].
    assert (is_skip test = false) as ->.
    { unfold is_disabled, is_skip in *. by destruct (status test). }
    apply IH.
  - cbn [run_loop]. rewrite Hdis. cbn [orb].
    destruct (negb (shouldRun env filter (fullName test))).
    + destruct (is_skip test); apply IH.
    + destruct (try_test test) as [[|] msg]; apply IH.
Qed.

Lemma count_total_drop_disabled tests n :
  count_total env filter tests n =
  count_total env filter (List.filter (λ test, negb (is_disabled test)) tests) n.
Proof.
  revert n. induction tests as [|test rest IH]; intros n; [done|].
  cbn [List.filter]. destruct (is_disabled test) eqn:Hdis; cbn [negb].
  - cbn [count_total]. rewrite Hdis. apply IH.
  - cbn [count_total]. rewrite Hdis. apply IH.
Qed.

Lemma enable_outcomes test :
  passes env filter (enable test) = passes env filter test ∧
  fails env filter (enable test) = fails env filter test ∧
  selected env filter (enable test) = selected env filter test ∧
  reported_skipped env filter (enable test) = false.
Proof.
  unfold passes, fails, selected, reported_skipped, is_disabled, is_skip, enable, fullName,
    try_test. simpl. by destruct (status test).
Qed.

Lemma filter_length_ext {A B} (p : A → bool) (q : B → bool) (f : A → B) (l : list A) :
  (∀ x, q (f x) = p x) →
  length (List.filter q (f <$> l)) = length (List.filter p l).
Proof.
  intros Hext. induction l as [|x l IH]; [done|].
  rewrite fmap_cons. simpl. rewrite Hext. destruct (p x); simpl; by rewrite IH.
Qed.
End registry.

Lemma string_app_empty_r (s : string) : s +:+ "" = s.
Proof.
  induction s as [|c s IH]; [done|].
  change (String c (s +:+ "") = String c s). by f_equal.
Qed.

Lemma string_app_snoc (cur word : string) (c : ascii) :
  (cur +:+ String c "") +:+ word = cur +:+ String c word.
Proof.
  induction cur as [|c' cur IH]; [done|].
  change (String c' ((cur +:+ String c "") +:+ word) = String c' (cur +:+ String c word)).
  by f_equal.
Qed.

Lemma getline_segments_word (word rest cur : string) :
  comma_free word = true →
  getline_segments (word +:+ rest) cur = getline_segments rest (cur +:+ word).
Proof.
  revert cur. induction word as [|c word IH]; intros cur Hfree.
  - change ("" +:+ rest) with rest. by rewrite string_app_empty_r.
  - simpl in Hfree. apply andb_prop in Hfree as [Hc Hfree].
    change (String c word +:+ rest) with (String c (word +:+ rest)).
    cbn [getline_segments]. destruct (Ascii.eqb c ","); [done|].
    by rewrite (IH _ Hfree), string_app_snoc.
Qed.

Lemma getline_segments_concat (names : list string) :
  Forall (λ n, comma_free n = true ∧ n ≠ "") names →
  getline_segments (String.concat "," names) "" = names.
Proof.
  induction 1 as [|n names [Hfree Hne] _ IH]; [done|].
  destruct names as [|n' names].
  - simpl. rewrite <- (string_app_empty_r n) at 1.
    rewrite getline_segments_word by done. simpl. by destruct n.
  - change (String.concat "," (n :: n' :: names))
      with (n +:+ String "," (String.concat "," (n' :: names))).
    rewrite getline_segments_word by done.
    cbn [getline_segments]. rewrite Ascii.eqb_refl. by rewrite IH.
Qed.

Lemma runAllTests_unfold env filter tests :
  ∃ events,
    runAllTests env filter tests =
    (initializeFromEnv env filter,
     mkTestStatistics
       (length (List.filter (selected env (initializeFromEnv env filter)) tests))
       (length (List.filter (passes env (initializeFromEnv env filter)) tests))
       (length (List.filter (fails env (initializeFromEnv env filter)) tests))
       (length (List.filter (reported_skipped env (initializeFromEnv env filter)) tests))
       (duration_cast_ms
          (clock_now env
             (1 + 2 * (length (List.filter (passes env (initializeFromEnv env filter)) tests) +
                       length (List.filter (fails env (initializeFromEnv env filter)) tests)))
           - clock_now env 0)),
     events,
     if (0 <? length (List.filter (fails env (initializeFromEnv env filter)) tests))%nat
     then 1 else 0) ∧
    length events =
      (length (List.filter (passes env (initializeFromEnv env filter)) tests) +
       length (List.filter (fails env (initializeFromEnv env filter)) tests) +
       length (List.filter (reported_skipped env (initializeFromEnv env filter)) tests))%nat.
Proof.
  unfold runAllTests. set (filter' := initializeFromEnv env filter).
  rewrite count_total_spec.
  destruct (run_loop_spec env filter' tests 1
              (mkTestStatistics (0 + length (List.filter (selected env filter') tests)) 0 0 0 0) [])
    as (events & tick & -> & Hlen & ->).
  exists events. by split.
Qed.


(** X22: the exit code of [runAllTests] is 0 or 1, and it is 0 exactly
    when no test failed, that is, when for every selected test the
    validation function is absent or gives [true] and the test function
    returns without throwing. *)
Theorem exit_code_is_zero_iff_all_pass env filter tests filter' stats events code :
  runAllTests env filter tests = (filter', stats, events, code) →
  (code = 0 ∨ code = 1) ∧
  (code = 0 ↔ failed stats = 0%nat) ∧
  (code = 0 ↔
   ∀ test, test ∈ tests → selected env filter' test = true →
           (validateFunc test = None ∨ validateFunc test = Some (Gives true)) ∧
           ∃ u, testFunc test = Gives u).
Proof.
  destruct (runAllTests_unfold env filter tests) as (events0 & -> & Hlen).
  intros [= <- <- <- <-]. cbn [failed].
  set (filter' := initializeFromEnv env filter).
  assert ((if (0 <? length (List.filter (fails env filter') tests))%nat then 1 else 0) = 0 ↔
          length (List.filter (fails env filter') tests) = 0%nat) as Hcode.
  { destruct (length (List.filter (fails env filter') tests)); simpl; [done|].
    split; [done|lia]. }
  split_and!.
  - destruct (0 <? _)%nat; auto.
  - done.
  - rewrite Hcode, filter_length_zero. unfold fails. split.
    + intros Hall test Hin Hsel. specialize (Hall test Hin). rewrite Hsel in Hall.
      apply try_test_success. simpl in Hall. by destruct (try_test test).1.
    + intros Hall test Hin. destruct (selected env filter' test) eqn:Hsel; [|done].
      simpl. apply negb_false_iff, try_test_success. by apply Hall.
Qed.

(** X23: the status [Skip] alone does not keep a test from running.
    Replacing every status [Skip] by [Enabled] changes neither the total,
    the passed and failed counts, the total time nor the exit code; it only
    brings the skipped count to 0. *)
Theorem skip_status_does_not_skip env filter tests f1 s1 e1 c1 f2 s2 e2 c2 :
  runAllTests env filter tests = (f1, s1, e1, c1) →
  runAllTests env filter (enable <$> tests) = (f2, s2, e2, c2) →
  total s2 = total s1 ∧ passed s2 = passed s1 ∧ failed s2 = failed s1 ∧
  totalTime s2 = totalTime s1 ∧ c2 = c1 ∧ skipped s2 = 0%nat.
Proof.
  destruct (runAllTests_unfold env filter tests) as (events1 & -> & _).
  destruct (runAllTests_unfold env filter (enable <$> tests)) as (events2 & -> & _).
  intros [= <- <- <- <-] [= <- <- <- <-]. cbn [total passed failed skipped totalTime].
  set (filter' := initializeFromEnv env filter).
  rewrite (filter_length_ext (selected env filter') (selected env filter') enable)
    by (intros test; apply enable_outcomes).
  rewrite (filter_length_ext (passes env filter') (passes env filter') enable)
    by (intros test; apply enable_outcomes).
  rewrite (filter_length_ext (fails env filter') (fails env filter') enable)
    by (intros test; apply enable_outcomes).
  rewrite (filter_length_ext (λ _, false) (reported_skipped env filter') enable)
    by (intros test; apply enable_outcomes).
  split_and!; [done..|]. clear. by induction tests.
Qed.

(** X24: disabled tests are invisible to [runAllTests]: removing them
    from the registry gives the same filter, statistics, output lines and
    exit code. *)
Theorem disabled_tests_are_ignored env filter tests :
  runAllTests env filter tests =
  runAllTests env filter (List.filter (λ test, negb (is_disabled test)) tests).
Proof.
  unfold runAllTests.
  by rewrite <- count_total_drop_disabled, <- run_loop_drop_disabled.
Qed.

Lemma foldl_insert (names : list string) (set : gset string) :
  foldl (λ set test, {[test]} ∪ set) set names = list_to_set names ∪ set.
Proof.
  revert set. induction names as [|n names IH]; intros set; simpl.
  - by rewrite (left_id_L ∅ (∪)).
  - rewrite IH. by rewrite (assoc_L (∪)), (comm_L (∪) (list_to_set names)).
Qed.

(** X25: [RYTEST_DISABLED_TESTS] set to non-empty names without commas,
    joined by commas, disables exactly these names in addition to those
    disabled before; [shouldRun] is [false] for each of them whatever the
    filter pattern; and reading the same environment a second time changes
    nothing. *)
Theorem listed_tests_are_disabled env filter names :
  Forall (λ n, comma_free n = true ∧ n ≠ "") names →
  getenv_disabled_tests env = Some (String.concat "," names) →
  m_disabledTests (initializeFromEnv env filter) = list_to_set names ∪ m_disabledTests filter ∧
  (∀ n, n ∈ names ∨ n ∈ m_disabledTests filter →
        shouldRun env (initializeFromEnv env filter) n = false) ∧
  initializeFromEnv env (initializeFromEnv env filter) = initializeFromEnv env filter.
Proof.
  intros Hnames Henv.
  assert (m_disabledTests (initializeFromEnv env filter) =
          list_to_set names ∪ m_disabledTests filter) as Hset.
  { unfold initializeFromEnv. simpl.
    by rewrite Henv, getline_segments_concat, foldl_insert. }
  split_and!; [done| |].
  - intros n Hn. unfold shouldRun. rewrite Hset, bool_decide_eq_true_2; [done|].
    apply elem_of_union. destruct Hn as [Hn|Hn]; [left|by right].
    by apply elem_of_list_to_set.
  - unfold initializeFromEnv at 1. rewrite Hset. unfold initializeFromEnv. simpl.
    rewrite Henv, getline_segments_concat, !foldl_insert by done.
    f_equal; [|by destruct (getenv_filter env)].
    by rewrite (assoc_L (∪)), (idemp_L (∪)).
Qed.
End RyTestFacts.

(** ** The registry properties at concrete inputs *)

Module RyTestExamples.
Import RyTest RyTestFacts.

Example runAllTests_example :
  ∃ filter' events,
    runAllTests example_environment (mkTestFilter ∅ None) example_tests =
    (filter', mkTestStatistics 4 1 3 1 18, events, 1) ∧
    events = [Ok "math.add" 2; Skipped "io.net" "no network";
              Failed "io.disk" "Expected true: ok"; Failed "ui.draw" "Unknown error";
              Failed "ui.check" "Validation failed"].
Proof. eexists _, _. split; [vm_compute; reflexivity|reflexivity]. Qed.


Lemma exit_code_is_zero_iff_all_pass_witness :
  ∃ filter' stats events,
    runAllTests example_environment (mkTestFilter ∅ None) passing_tests =
      (filter', stats, events, 0) ∧
    failed stats = 0%nat.
Proof.
  destruct (runAllTests example_environment (mkTestFilter ∅ None) passing_tests)
    as [[[filter' stats] events] code] eqn:Hrun.
  assert (code = 0) as -> by (vm_compute in Hrun; by injection Hrun as _ _ _ <-).
  exists filter', stats, events. split; [reflexivity|].
  destruct (exit_code_is_zero_iff_all_pass _ _ _ _ _ _ _ Hrun) as (_ & Hfailed & _).
  by apply Hfailed.
Defined.

Lemma skip_status_does_not_skip_witness :
  ∃ f1 s1 e1 c1 f2 s2 e2 c2,
    runAllTests example_environment (mkTestFilter ∅ None) example_tests = (f1, s1, e1, c1) ∧
    runAllTests example_environment (mkTestFilter ∅ None) (enable <$> example_tests) =
      (f2, s2, e2, c2) ∧
    passed s2 = passed s1 ∧ skipped s2 = 0%nat.
Proof.
  destruct (runAllTests example_environment (mkTestFilter ∅ None) example_tests)
    as [[[f1 s1] e1] c1] eqn:Hrun1.
  destruct (runAllTests example_environment (mkTestFilter ∅ None) (enable <$> example_tests))
    as [[[f2 s2] e2] c2] eqn:Hrun2.
  exists f1, s1, e1, c1, f2, s2, e2, c2. split; [reflexivity|]. split; [reflexivity|].
  destruct (skip_status_does_not_skip _ _ _ _ _ _ _ _ _ _ _ Hrun1 Hrun2)
    as (_ & Hpassed & _ & _ & _ & Hskipped).
  split; [exact Hpassed|exact Hskipped].
Defined.

Lemma listed_tests_are_disabled_witness :
  Forall (λ n, comma_free n = true ∧ n ≠ "") ["math.slow"; "io.net"] ∧
  shouldRun listed_environment
    (initializeFromEnv listed_environment (mkTestFilter ∅ (Some "*"))) "io.net" = false.
Proof.
  assert (Forall (λ n, comma_free n = true ∧ n ≠ "") ["math.slow"; "io.net"]) as Hnames.
  { repeat constructor; discriminate. }
  split; [exact Hnames|].
  destruct (listed_tests_are_disabled listed_environment (mkTestFilter ∅ (Some "*"))
              ["math.slow"; "io.net"] Hnames eq_refl) as (_ & Hoff & _).
  apply Hoff. left. right. left.
Defined.
End RyTestExamples.
